(** * PGL-SUM solver: scoring metric, weight initializer and training loop

    Shallow embedding of [model/solver.py].

    - [evaluate_summary] is embedded with the Python / NumPy value domain it
      computes in: Python [int], [numpy.int64] (with wrap-around) and IEEE-754
      binary64 ([numpy.float64] and Python [float]), the latter through the
      executable specification [SpecFloat] of the standard library.
    - [Solver.init_weights] is embedded over an association list of named
      parameters; the in-place initializers of [torch.nn.init] are section
      variables that may raise, as the real ones do on a tensor they refuse.
    - [Solver.train] and [Solver.evaluate] are embedded in a state-and-exception
      monad whose state is the log of calls made to the collaborators (model,
      optimizer, writer, file system); the collaborators themselves (network,
      loaders, dataset store, [generate_summary]) are section variables.  The
      number of batches, [int(len(train_loader) / batch_size)], is the binary64
      quotient truncated, shown to be the integer quotient below [2^53]. *)

From Stdlib Require Import ZArith String Ascii Bool List Lia Permutation.
From Stdlib Require Import SpecFloat.
Import ListNotations.

Set Implicit Arguments.

(* ================================================================== *)
(** * Exceptions and results *)

Inductive exn : Type :=
| ZeroDivisionError
| ValueError
| OverflowError
| StopIteration
| RuntimeError
| NotImplementedError (msg : string).

Inductive result (A : Type) : Type :=
| Ok (a : A)
| Raise (e : exn).

Arguments Ok {A} a.
Arguments Raise {A} e.

Definition rbind {A B} (r : result A) (k : A -> result B) : result B :=
  match r with
  | Ok a => k a
  | Raise e => Raise e
  end.

Declare Scope result_scope.
Delimit Scope result_scope with result.
Notation "x <- c ;; k" := (rbind c (fun x => k))
  (at level 61, c at next level, right associativity) : result_scope.

(* ================================================================== *)
(** * IEEE-754 binary64 *)

Module F64.
Definition prec : Z := 53.
Definition emax : Z := 1024.

Definition add := SFadd prec emax.
Definition mul := SFmul prec emax.
Definition div := SFdiv prec emax.
Definition eqb := SFeqb.
Definition ltb := SFltb.

(** Conversion of an integer, rounding to nearest even. *)
Definition of_Z (z : Z) : spec_float := binary_normalize prec emax z 0 false.

Definition zero : spec_float := S754_zero false.
Definition nan : spec_float := S754_nan.

Definition is_nan (f : spec_float) : bool :=
  match f with S754_nan => true | _ => false end.
End F64.

(* ================================================================== *)
(** * Python and NumPy scalars *)

(** The scalars [evaluate_summary] manipulates.  [PyInt] is Python's unbounded
    [int]; [NpInt64] is the element type of [np.zeros(n, dtype=int)];
    [PyFloat] and [NpFloat64] are both binary64, but only the NumPy scalar
    divides by zero without raising. *)
Inductive value : Type :=
| PyInt (z : Z)
| PyFloat (f : spec_float)
| NpInt64 (z : Z)
| NpFloat64 (f : spec_float).

Definition wrap64 (z : Z) : Z := ((z + 2 ^ 63) mod 2 ^ 64 - 2 ^ 63)%Z.

Definition to_f64 (v : value) : spec_float :=
  match v with
  | PyInt z | NpInt64 z => F64.of_Z z
  | PyFloat f | NpFloat64 f => f
  end.

Definition is_numpy (v : value) : bool :=
  match v with
  | NpInt64 _ | NpFloat64 _ => true
  | _ => false
  end.

(** Result of a binary64 operation on mixed operands: a NumPy scalar as soon
    as one operand is one. *)
Definition float_result (a b : value) (f : spec_float) : value :=
  if is_numpy a || is_numpy b then NpFloat64 f else PyFloat f.

(** [a + b] *)
Definition py_add (a b : value) : value :=
  match a, b with
  | PyInt x, PyInt y => PyInt (x + y)
  | PyInt x, NpInt64 y | NpInt64 x, PyInt y | NpInt64 x, NpInt64 y =>
      NpInt64 (wrap64 (x + y))
  | _, _ => float_result a b (F64.add (to_f64 a) (to_f64 b))
  end.

(** [a * b] *)
Definition py_mul (a b : value) : value :=
  match a, b with
  | PyInt x, PyInt y => PyInt (x * y)
  | PyInt x, NpInt64 y | NpInt64 x, PyInt y | NpInt64 x, NpInt64 y =>
      NpInt64 (wrap64 (x * y))
  | _, _ => float_result a b (F64.mul (to_f64 a) (to_f64 b))
  end.

Definition is_zero (v : value) : bool :=
  match v with
  | PyInt z | NpInt64 z => (z =? 0)%Z
  | PyFloat f | NpFloat64 f => F64.eqb f F64.zero
  end.

(** [a / b] (true division).  Between Python scalars a zero divisor raises;
    as soon as a NumPy scalar is involved the IEEE quotient (NaN or an
    infinity) is returned.  Integer operands are converted first, which is
    exact below [2^53] in absolute value; there the quotient of the
    conversions is the correctly rounded quotient Python returns for two
    [int]s. *)
Definition py_truediv (a b : value) : result value :=
  if negb (is_numpy a || is_numpy b) && is_zero b then Raise ZeroDivisionError
  else Ok (float_result a b (F64.div (to_f64 a) (to_f64 b))).

(** [int(v)]: truncation toward zero. *)
Definition py_int (v : value) : result Z :=
  match v with
  | PyInt z | NpInt64 z => Ok z
  | PyFloat f | NpFloat64 f =>
      match f with
      | S754_zero _ => Ok 0%Z
      | S754_finite s m e => Ok (cond_Zopp s (Z.shiftl (Zpos m) e))
      | S754_infinity _ => Raise OverflowError
      | S754_nan => Raise ValueError
      end
  end.

(** [a == b] *)
Definition py_eq (a b : value) : bool :=
  match a, b with
  | (PyInt x | NpInt64 x), (PyInt y | NpInt64 y) => (x =? y)%Z
  | _, _ => F64.eqb (to_f64 a) (to_f64 b)
  end.

(** [a > b] *)
Definition py_gt (a b : value) : bool :=
  match a, b with
  | (PyInt x | NpInt64 x), (PyInt y | NpInt64 y) => (y <? x)%Z
  | _, _ => F64.ltb (to_f64 b) (to_f64 a)
  end.

(** [np.isnan(v)] *)
Definition np_isnan (v : value) : bool :=
  match v with
  | PyFloat f | NpFloat64 f => F64.is_nan f
  | _ => false
  end.

(** The builtin [sum(xs)]: a left fold of [+] from the Python integer 0. *)
Definition py_sum (xs : list value) : value :=
  fold_left py_add xs (PyInt 0).

(** The builtin [max(xs)]: the first element is kept until a strictly greater
    one is met; an empty argument raises [ValueError]. *)
Definition py_max (xs : list value) : result value :=
  match xs with
  | [] => Raise ValueError
  | x :: rest =>
      Ok (fold_left (fun maxitem item => if py_gt item maxitem then item else maxitem)
                    rest x)
  end.

(* ================================================================== *)
(** * The scoring metric *)

(** Arrays are given by the integers the buffers [S] and [G] (of
    [dtype=int], that is [int64]) hold once the arguments are assigned to
    them: for integer arguments, the arguments themselves.

    A two-dimensional array: [shape1] is [shape[1]], the rows are [a[0]],
    [a[1]], ...; [shape[0]] is the number of rows. *)
Record ndarray2 : Type := mk_ndarray2 {
  shape1 : nat;
  rows : list (list Z)
}.

(** Every row of a NumPy array has [shape[1]] entries. *)
Definition well_shaped (a : ndarray2) : bool :=
  forallb (fun r => Nat.eqb (length r) (shape1 a)) (rows a).

(** [np.zeros(n, dtype=int)] *)
Definition np_zeros (n : nat) : list Z := repeat 0%Z n.

(** [buf[:n] = src], for a source of [n] entries with [n <= len(buf)]. *)
Definition assign_prefix (buf : list Z) (n : nat) (src : list Z) : list Z :=
  src ++ skipn n buf.

(** [a & b], element by element *)
Fixpoint np_and (a b : list Z) : list Z :=
  match a, b with
  | x :: a', y :: b' => Z.land x y :: np_and a' b'
  | _, _ => []
  end.

(** [sum(a)] on an integer array: its elements are [numpy.int64] scalars. *)
Definition sum_array (a : list Z) : value := py_sum (map NpInt64 a).

Local Open Scope result_scope.

(** Body of the loop over annotators, after [G] has been refreshed. *)
Definition user_fscore (S G : list Z) : result value :=
  let overlapped := np_and S G in
  precision <- py_truediv (sum_array overlapped) (sum_array S) ;;
  recall <- py_truediv (sum_array overlapped) (sum_array G) ;;
  if py_eq (py_add precision recall) (PyInt 0) then Ok (PyInt 0)
  else py_truediv
         (py_mul (py_mul (py_mul (PyInt 2) precision) recall) (PyInt 100))
         (py_add precision recall).

(** [for user in range(user_summary.shape[0])]: the buffer [G] is shared by
    all iterations and overwritten on its first [L] entries by each. *)
Fixpoint user_loop (S G : list Z) (L : nat) (users : list (list Z))
    (f_scores : list value) : result (list value) :=
  match users with
  | [] => Ok f_scores
  | row :: rest =>
      let G := assign_prefix G L row in
      f <- user_fscore S G ;;
      user_loop S G L rest (f_scores ++ [f])
  end.

(** The list [f_scores] built by the loop. *)
Definition f_scores_of (predicted_summary : list Z) (user_summary : ndarray2)
    : result (list value) :=
  let max_len := Nat.max (length predicted_summary) (shape1 user_summary) in
  let S := np_zeros max_len in
  let G := np_zeros max_len in
  let S := assign_prefix S (length predicted_summary) predicted_summary in
  user_loop S G (shape1 user_summary) (rows user_summary) [].

Definition evaluate_summary (predicted_summary : list Z)
    (user_summary : ndarray2) (eval_method : string) : result value :=
  f_scores <- f_scores_of predicted_summary user_summary ;;
  if String.eqb eval_method "max" then py_max f_scores
  else py_truediv (py_sum f_scores) (PyInt (Z.of_nat (length f_scores))).

Local Close Scope result_scope.

(** Spec-side padding (section 4.1, steps 1-3): the vector copied left-aligned
    into a zero vector of length [n]. *)
Definition pad_zeros (n : nat) (v : list Z) : list Z :=
  v ++ repeat 0%Z (n - length v).

(** Applying a fallible function to every element, left to right. *)
Fixpoint map_result {A B} (f : A -> result B) (xs : list A) : result (list B) :=
  match xs with
  | [] => Ok []
  | x :: rest =>
      match f x with
      | Ok y =>
          match map_result f rest with
          | Ok ys => Ok (y :: ys)
          | Raise e => Raise e
          end
      | Raise e => Raise e
      end
  end.

(* ================================================================== *)
(** * Properties of the scoring metric *)

Section PaddingFacts.

Lemma pad_zeros_length (n : nat) (v : list Z) :
  length (pad_zeros n v) = Nat.max (length v) n.
Proof.
  unfold pad_zeros. rewrite length_app, repeat_length. lia.
Qed.



Lemma skipn_repeat (A : Type) (x : A) (k n : nat) :
  skipn k (repeat x n) = repeat x (n - k).
Proof.
  revert n. induction k as [|k IH]; intros [|n]; simpl; auto.
Qed.

(** Refreshing the shared buffer leaves it in padded form, whatever row it
    held before. *)
Lemma assign_prefix_padded (n L : nat) (old row : list Z) :
  length old = L -> length row = L ->
  assign_prefix (pad_zeros n old) L row = pad_zeros n row.
Proof.
  intros Hold Hrow. subst L. unfold assign_prefix, pad_zeros.
  rewrite skipn_app, skipn_all, Nat.sub_diag. simpl.
  now rewrite Hrow.
Qed.

Lemma assign_prefix_zeros (n : nat) (v : list Z) :
  length v <= n ->
  assign_prefix (np_zeros n) (length v) v = pad_zeros n v.
Proof.
  intros _. unfold assign_prefix, pad_zeros, np_zeros.
  now rewrite skipn_repeat.
Qed.

End PaddingFacts.

Section LoopRefinement.

Lemma well_shaped_rows (us : ndarray2) :
  well_shaped us = true ->
  Forall (fun r => length r = shape1 us) (rows us).
Proof.
  unfold well_shaped. rewrite forallb_forall, Forall_forall.
  intros H r Hr. apply Nat.eqb_eq. now apply H.
Qed.

Lemma np_zeros_padded (n L : nat) :
  L <= n -> np_zeros n = pad_zeros n (repeat 0%Z L).
Proof.
  intros HL. unfold pad_zeros, np_zeros.
  rewrite repeat_length, <- repeat_app. f_equal. lia.
Qed.

(** The loop over annotators, with its buffer overwritten in place, scores
    each row as the row padded with zeros. *)
Lemma user_loop_padded (n L : nat) (S : list Z) (users : list (list Z)) :
  L <= n ->
  Forall (fun r => length r = L) users ->
  forall (old : list Z) (acc : list value),
    length old = L ->
    user_loop S (pad_zeros n old) L users acc =
    match map_result (fun row => user_fscore S (pad_zeros n row)) users with
    | Ok fs => Ok (acc ++ fs)
    | Raise e => Raise e
    end.
Proof.
  intros HL Hrows. induction Hrows as [|row rest Hrow _ IH]; intros old acc Hold.
  - simpl. now rewrite app_nil_r.
  - simpl.
    rewrite assign_prefix_padded by assumption.
    destruct (user_fscore S (pad_zeros n row)) as [f|e]; simpl; [|reflexivity].
    rewrite (IH row (acc ++ [f])) by assumption.
    destruct (map_result _ rest) as [fs|e]; [|reflexivity].
    now rewrite <- app_assoc.
Qed.

Lemma f_scores_of_padded (predicted_summary : list Z) (user_summary : ndarray2) :
  well_shaped user_summary = true ->
  let max_len := Nat.max (length predicted_summary) (shape1 user_summary) in
  f_scores_of predicted_summary user_summary =
  map_result
    (fun row => user_fscore (pad_zeros max_len predicted_summary)
                            (pad_zeros max_len row))
    (rows user_summary).
Proof.
  intros Hws max_len. unfold f_scores_of. fold max_len.
  rewrite assign_prefix_zeros by (subst max_len; lia).
  rewrite (np_zeros_padded (n := max_len) (L := shape1 user_summary))
    by (subst max_len; lia).
  rewrite user_loop_padded
    by (try apply well_shaped_rows; try apply repeat_length;
        subst max_len; auto; lia).
  now destruct (map_result _ _).
Qed.

End LoopRefinement.

Section ScalarFacts.

Lemma py_truediv_numpy (a b : value) :
  is_numpy a || is_numpy b = true ->
  py_truediv a b = Ok (NpFloat64 (F64.div (to_f64 a) (to_f64 b))).
Proof.
  intros H. unfold py_truediv, float_result. now rewrite H.
Qed.

(** Summing NumPy integers never leaves [numpy.int64]. *)
Lemma fold_add_int64 (a : list Z) (z : Z) :
  exists z', fold_left py_add (map NpInt64 a) (NpInt64 z) = NpInt64 z'.
Proof.
  revert z. induction a as [|x a IH]; intros z; simpl; eauto.
Qed.

Lemma sum_array_nonempty (a : list Z) :
  a <> [] -> exists z, sum_array a = NpInt64 z.
Proof.
  destruct a as [|x a]; [congruence|]. intros _.
  unfold sum_array, py_sum. simpl. apply fold_add_int64.
Qed.

Lemma fold_add_zeros (k : nat) :
  fold_left py_add (map NpInt64 (repeat 0%Z k)) (NpInt64 0) = NpInt64 0.
Proof.
  induction k as [|k IH]; simpl; auto.
Qed.

(** A vector whose entries sum to zero still does once padded. *)
Lemma sum_array_pad_zero (n : nat) (v : list Z) :
  is_zero (sum_array v) = true ->
  0 < Nat.max (length v) n ->
  sum_array (pad_zeros n v) = NpInt64 0.
Proof.
  intros Hz Hn. unfold sum_array, py_sum, pad_zeros in *.
  rewrite map_app, fold_left_app.
  destruct v as [|x v].
  - simpl in *. destruct n as [|n]; [lia|].
    exact (fold_add_zeros n).
  - destruct (sum_array_nonempty (a := x :: v)) as [z Hs]; [congruence|].
    unfold sum_array, py_sum in Hs. rewrite Hs in *. simpl in Hz.
    apply Z.eqb_eq in Hz. subst z. apply fold_add_zeros.
Qed.

Lemma np_and_nonempty (a b : list Z) :
  a <> [] -> b <> [] -> np_and a b <> [].
Proof.
  destruct a, b; simpl; congruence.
Qed.

Lemma pad_zeros_nonempty (n : nat) (v : list Z) :
  0 < Nat.max (length v) n -> pad_zeros n v <> [].
Proof.
  intros H E. apply (f_equal (@length Z)) in E.
  rewrite pad_zeros_length in E. simpl in E. lia.
Qed.

Lemma map_result_Forall {A B} (f : A -> result B) (P : B -> Prop) (xs : list A) :
  Forall (fun x => exists y, f x = Ok y /\ P y) xs ->
  exists ys, map_result f xs = Ok ys /\ Forall P ys /\ length ys = length xs.
Proof.
  induction 1 as [|x rest (y & Hy & Py) _ (ys & Hys & Pys & Hlen)]; simpl.
  - exists []. auto.
  - rewrite Hy, Hys. exists (y :: ys). simpl. auto.
Qed.

End ScalarFacts.

(** The per-annotator score on binary64 operands: what [user_fscore] computes
    once the three sums are NumPy integers. *)
Definition fscore64 (precision recall : spec_float) : value :=
  if F64.eqb (F64.add precision recall) (F64.of_Z 0) then PyInt 0
  else NpFloat64
         (F64.div
            (F64.mul (F64.mul (F64.mul (F64.of_Z 2) precision) recall) (F64.of_Z 100))
            (F64.add precision recall)).

Definition precision64 (S G : list Z) : spec_float :=
  F64.div (to_f64 (sum_array (np_and S G))) (to_f64 (sum_array S)).

Definition recall64 (S G : list Z) : spec_float :=
  F64.div (to_f64 (sum_array (np_and S G))) (to_f64 (sum_array G)).

Section UserScore.

Lemma user_fscore_nonempty (S G : list Z) :
  S <> [] -> G <> [] ->
  user_fscore S G = Ok (fscore64 (precision64 S G) (recall64 S G)).
Proof.
  intros HS HG. unfold user_fscore, precision64, recall64, fscore64.
  destruct (sum_array_nonempty HS) as [s Hs].
  destruct (sum_array_nonempty HG) as [g Hg].
  destruct (sum_array_nonempty (np_and_nonempty HS HG)) as [o Ho].
  rewrite Hs, Hg, Ho.
  rewrite !py_truediv_numpy by reflexivity. simpl rbind.
  cbv beta iota delta [py_eq py_add float_result is_numpy orb to_f64].
  destruct (F64.eqb _ _); [reflexivity|].
  cbv beta iota delta [py_mul float_result is_numpy orb to_f64].
  rewrite py_truediv_numpy by reflexivity. reflexivity.
Qed.

End UserScore.

Section NanFacts.

(** With a zero denominator the precision is NaN or an infinity, and the
    score is NaN whatever the recall. *)
Lemma fscore64_zero_denominator (fo r : spec_float) :
  fscore64 (F64.div fo (S754_zero false)) r = NpFloat64 S754_nan.
Proof.
  destruct fo as [[]|[]| |[] m e], r as [[]|[]| |[] m' e']; reflexivity.
Qed.

(** A zero-sum annotator row against a non-zero prediction: recall is 0/0. *)
Lemma fscore64_nan_recall (p : spec_float) :
  fscore64 p S754_nan = NpFloat64 S754_nan.
Proof.
  unfold fscore64.
  replace (F64.add p S754_nan) with S754_nan by now destruct p.
  simpl. now destruct (F64.mul _ _).
Qed.

Lemma py_max_all_nan (fs : list value) :
  fs <> [] -> Forall (eq (NpFloat64 S754_nan)) fs ->
  py_max fs = Ok (NpFloat64 S754_nan).
Proof.
  destruct fs as [|x fs]; [congruence|]. intros _ H.
  inversion H as [|? ? Hx Hfs]; subst. clear H. simpl. f_equal.
  induction Hfs as [|y fs Hy _ IH]; simpl; [reflexivity|].
  subst y. exact IH.
Qed.

Lemma py_mean_all_nan (fs : list value) :
  fs <> [] -> Forall (eq (NpFloat64 S754_nan)) fs ->
  py_truediv (py_sum fs) (PyInt (Z.of_nat (length fs))) = Ok (NpFloat64 S754_nan).
Proof.
  destruct fs as [|x fs]; [congruence|]. intros _ H.
  inversion H as [|? ? Hx Hfs]; subst. clear H.
  assert (Hsum : py_sum (NpFloat64 S754_nan :: fs) = NpFloat64 S754_nan).
  { unfold py_sum. simpl.
    change (float_result (PyInt 0) (NpFloat64 S754_nan)
              (F64.add (F64.of_Z 0) S754_nan)) with (NpFloat64 S754_nan).
    induction Hfs as [|y fs Hy _ IH]; simpl; [reflexivity|].
    subst y. exact IH. }
  rewrite Hsum. now rewrite py_truediv_numpy.
Qed.

End NanFacts.

(* ================================================================== *)
(** * Claims about [evaluate_summary] *)



Lemma map_result_nth {A B} (f : A -> result B) (xs : list A) (ys : list B) :
  map_result f xs = Ok ys ->
  forall i x, nth_error xs i = Some x ->
  exists y, f x = Ok y /\ nth_error ys i = Some y.
Proof.
  revert ys. induction xs as [|a xs IH]; intros ys H i x Hi.
  - destruct i; discriminate.
  - simpl in H. destruct (f a) as [b|e] eqn:Ha; [|discriminate].
    destruct (map_result f xs) as [bs|e] eqn:Hxs; [|discriminate].
    injection H as <-. destruct i as [|i]; simpl in *.
    + injection Hi as <-. eauto.
    + eapply IH; eauto.
Qed.

(** C4.  Whenever an annotator's [precision + recall] compares equal to 0, the
    loop body yields the score 0 for that annotator, and so does the list of
    scores built by [evaluate_summary] at that annotator's index; in particular
    [evaluate_summary([1,0,0,0], [[0,1,1,0]], 'max')] returns 0, which compares
    equal to 0.0. *)
Theorem fscore_zero_when_precision_plus_recall_zero :
  (forall (S G : list Z) (precision recall : value),
      py_truediv (sum_array (np_and S G)) (sum_array S) = Ok precision ->
      py_truediv (sum_array (np_and S G)) (sum_array G) = Ok recall ->
      py_eq (py_add precision recall) (PyInt 0) = true ->
      user_fscore S G = Ok (PyInt 0))
  /\ (forall (predicted_summary : list Z) (user_summary : ndarray2)
             (f_scores : list value) (user : nat) (row : list Z)
             (precision recall : value),
         well_shaped user_summary = true ->
         f_scores_of predicted_summary user_summary = Ok f_scores ->
         nth_error (rows user_summary) user = Some row ->
         let max_len := Nat.max (length predicted_summary) (shape1 user_summary) in
         let S := pad_zeros max_len predicted_summary in
         let G := pad_zeros max_len row in
         py_truediv (sum_array (np_and S G)) (sum_array S) = Ok precision ->
         py_truediv (sum_array (np_and S G)) (sum_array G) = Ok recall ->
         py_eq (py_add precision recall) (PyInt 0) = true ->
         nth_error f_scores user = Some (PyInt 0))
  /\ evaluate_summary [1;0;0;0]%Z (mk_ndarray2 4 [[0;1;1;0]%Z]) "max" = Ok (PyInt 0)
  /\ py_eq (PyInt 0) (PyFloat (S754_zero false)) = true.
Proof.
  assert (Hbody : forall (S G : list Z) (precision recall : value),
             py_truediv (sum_array (np_and S G)) (sum_array S) = Ok precision ->
             py_truediv (sum_array (np_and S G)) (sum_array G) = Ok recall ->
             py_eq (py_add precision recall) (PyInt 0) = true ->
             user_fscore S G = Ok (PyInt 0)).
  { intros S G p r Hp Hr Hz. unfold user_fscore.
    rewrite Hp. simpl rbind. rewrite Hr. simpl rbind. now rewrite Hz. }
  split; [exact Hbody|]. split; [|split; reflexivity].
  intros pred us fs user row p r Hws Hfs Hrow max_len S G Hp Hr Hz.
  rewrite (@f_scores_of_padded pred us Hws) in Hfs.
  destruct (map_result_nth _ _ Hfs _ Hrow) as (y & Hy & Hnth).
  fold max_len S G in Hy.
  rewrite (Hbody S G p r Hp Hr Hz) in Hy. now injection Hy as <-.
Qed.

Lemma fscore_zero_when_precision_plus_recall_zero_witness :
  py_truediv (sum_array (np_and [1;0;0;0]%Z [0;1;1;0]%Z)) (sum_array [1;0;0;0]%Z)
    = Ok (NpFloat64 (S754_zero false))
  /\ py_truediv (sum_array (np_and [1;0;0;0]%Z [0;1;1;0]%Z)) (sum_array [0;1;1;0]%Z)
    = Ok (NpFloat64 (S754_zero false))
  /\ py_eq (py_add (NpFloat64 (S754_zero false)) (NpFloat64 (S754_zero false)))
           (PyInt 0) = true
  /\ user_fscore [1;0;0;0]%Z [0;1;1;0]%Z = Ok (PyInt 0).
Proof.
  split; [reflexivity|]. split; [reflexivity|]. split; [reflexivity|].
  exact (proj1 fscore_zero_when_precision_plus_recall_zero
           [1;0;0;0]%Z [0;1;1;0]%Z
           (NpFloat64 (S754_zero false)) (NpFloat64 (S754_zero false))
           eq_refl eq_refl eq_refl).
Defined.

(** Every annotator's score is NaN when the prediction sums to zero. *)
Lemma f_scores_zero_prediction
    (predicted_summary : list Z) (user_summary : ndarray2) :
  well_shaped user_summary = true ->
  0 < Nat.max (length predicted_summary) (shape1 user_summary) ->
  is_zero (sum_array predicted_summary) = true ->
  exists f_scores,
    f_scores_of predicted_summary user_summary = Ok f_scores
    /\ Forall (eq (NpFloat64 S754_nan)) f_scores
    /\ length f_scores = length (rows user_summary).
Proof.
  intros Hws Hlen Hsum.
  rewrite (@f_scores_of_padded predicted_summary user_summary Hws).
  set (max_len := Nat.max _ _) in *.
  apply map_result_Forall. apply Forall_forall. intros row _.
  assert (HS : pad_zeros max_len predicted_summary <> []).
  { apply pad_zeros_nonempty. subst max_len. lia. }
  assert (HG : pad_zeros max_len row <> []).
  { apply pad_zeros_nonempty. subst max_len. lia. }
  rewrite (user_fscore_nonempty HS HG). eexists. split; [reflexivity|].
  unfold precision64.
  rewrite (@sum_array_pad_zero max_len predicted_summary Hsum)
    by (subst max_len; lia).
  change (to_f64 (NpInt64 0)) with (S754_zero false).
  now rewrite fscore64_zero_denominator.
Qed.

(** C6 (as amended).  For a predicted summary whose entries sum to zero, at
    least one annotator row and [max(len(predicted), L) > 0], [evaluate_summary]
    raises nothing and returns NaN, under either reduction. *)
Theorem evaluate_summary_zero_prediction_nan
    (predicted_summary : list Z) (user_summary : ndarray2) (eval_method : string) :
  well_shaped user_summary = true ->
  rows user_summary <> [] ->
  is_zero (sum_array predicted_summary) = true ->
  0 < Nat.max (length predicted_summary) (shape1 user_summary) ->
  evaluate_summary predicted_summary user_summary eval_method
  = Ok (NpFloat64 S754_nan).
Proof.
  intros Hws Hrows Hsum Hlen.
  destruct (@f_scores_zero_prediction predicted_summary user_summary Hws Hlen Hsum)
    as (fs & Hfs & Hnan & Hn).
  assert (Hne : fs <> []).
  { intros ->. destruct (rows user_summary); [congruence|discriminate]. }
  unfold evaluate_summary. rewrite Hfs. simpl rbind.
  destruct (String.eqb eval_method "max").
  - now apply py_max_all_nan.
  - now apply py_mean_all_nan.
Qed.

Lemma evaluate_summary_zero_prediction_nan_witness :
  well_shaped (mk_ndarray2 3 [[1;0;1]%Z]) = true
  /\ rows (mk_ndarray2 3 [[1;0;1]%Z]) <> []
  /\ is_zero (sum_array [0;0]%Z) = true
  /\ 0 < Nat.max (length [0;0]%Z) (shape1 (mk_ndarray2 3 [[1;0;1]%Z]))
  /\ evaluate_summary [0;0]%Z (mk_ndarray2 3 [[1;0;1]%Z]) "max"
     = Ok (NpFloat64 S754_nan).
Proof.
  assert (H1 : well_shaped (mk_ndarray2 3 [[1;0;1]%Z]) = true) by reflexivity.
  assert (H2 : rows (mk_ndarray2 3 [[1;0;1]%Z]) <> []) by discriminate.
  assert (H3 : is_zero (sum_array [0;0]%Z) = true) by reflexivity.
  assert (H4 : 0 < Nat.max (length [0;0]%Z) (shape1 (mk_ndarray2 3 [[1;0;1]%Z])))
    by (simpl; lia).
  split; [exact H1|]. split; [exact H2|]. split; [exact H3|]. split; [exact H4|].
  exact (@evaluate_summary_zero_prediction_nan _ _ "max" H1 H2 H3 H4).
Defined.

(** C6, counterexample.  An empty predicted summary against a one-annotator
    matrix of zero frames: the entries sum to zero and there is an annotator
    row, yet the divisions are between Python integers and raise. *)
Lemma evaluate_summary_empty_prediction_raises :
  well_shaped (mk_ndarray2 0 [[]]) = true
  /\ rows (mk_ndarray2 0 [[]]) <> []
  /\ is_zero (sum_array []) = true
  /\ evaluate_summary [] (mk_ndarray2 0 [[]]) "max" = Raise ZeroDivisionError
  /\ evaluate_summary [] (mk_ndarray2 0 [[]]) "avg" = Raise ZeroDivisionError.
Proof.
  repeat split; try reflexivity. discriminate.
Qed.

(** The loop over annotators completes whenever the compared vectors are not
    empty. *)
Lemma f_scores_of_total (predicted_summary : list Z) (user_summary : ndarray2) :
  well_shaped user_summary = true ->
  0 < Nat.max (length predicted_summary) (shape1 user_summary) ->
  exists f_scores,
    f_scores_of predicted_summary user_summary = Ok f_scores
    /\ Forall (fun v => v = PyInt 0 \/ exists f, v = NpFloat64 f) f_scores
    /\ length f_scores = length (rows user_summary).
Proof.
  intros Hws Hlen.
  rewrite (@f_scores_of_padded predicted_summary user_summary Hws).
  set (max_len := Nat.max _ _) in *.
  apply map_result_Forall. apply Forall_forall. intros row _.
  rewrite user_fscore_nonempty by (apply pad_zeros_nonempty; subst max_len; lia).
  eexists. split; [reflexivity|]. unfold fscore64.
  destruct (F64.eqb _ _); eauto.
Qed.

Lemma py_mean_total (f_scores : list value) :
  f_scores <> [] ->
  exists v, py_truediv (py_sum f_scores) (PyInt (Z.of_nat (length f_scores))) = Ok v.
Proof.
  intros Hne. unfold py_truediv.
  replace (is_zero (PyInt (Z.of_nat (length f_scores)))) with false.
  - rewrite andb_false_r. eauto.
  - destruct f_scores; [congruence|]. simpl length. symmetry.
    apply Z.eqb_neq. lia.
Qed.

(** C9.  For every [eval_method] other than ['max'], documented or not,
    [evaluate_summary] has the outcome it has for ['avg']: the builtin sum of
    the per-annotator scores divided by their number.  The name itself raises
    nothing: on non-empty vectors and at least one annotator row a value is
    returned. *)
Theorem evaluate_summary_other_policy_is_mean
    (predicted_summary : list Z) (user_summary : ndarray2) (eval_method : string) :
  eval_method <> "max"%string ->
  evaluate_summary predicted_summary user_summary eval_method =
    rbind (f_scores_of predicted_summary user_summary)
          (fun f_scores =>
             py_truediv (py_sum f_scores) (PyInt (Z.of_nat (length f_scores))))
  /\ evaluate_summary predicted_summary user_summary eval_method =
     evaluate_summary predicted_summary user_summary "avg"
  /\ (well_shaped user_summary = true ->
      rows user_summary <> [] ->
      0 < Nat.max (length predicted_summary) (shape1 user_summary) ->
      exists f_scores v,
        f_scores_of predicted_summary user_summary = Ok f_scores
        /\ py_truediv (py_sum f_scores) (PyInt (Z.of_nat (length f_scores))) = Ok v
        /\ evaluate_summary predicted_summary user_summary eval_method = Ok v).
Proof.
  intros Hm. apply String.eqb_neq in Hm.
  assert (Heq : evaluate_summary predicted_summary user_summary eval_method =
                rbind (f_scores_of predicted_summary user_summary)
                  (fun f_scores =>
                     py_truediv (py_sum f_scores)
                                (PyInt (Z.of_nat (length f_scores))))).
  { unfold evaluate_summary. now rewrite Hm. }
  split; [exact Heq|]. split; [now rewrite Heq|].
  intros Hws Hrows Hlen.
  destruct (@f_scores_of_total predicted_summary user_summary Hws Hlen)
    as (fs & Hfs & _ & Hn).
  assert (Hne : fs <> []).
  { intros ->. destruct (rows user_summary); [congruence|discriminate]. }
  destruct (py_mean_total Hne) as [v Hv].
  exists fs, v. split; [exact Hfs|]. split; [exact Hv|].
  rewrite Heq, Hfs. exact Hv.
Qed.

Lemma evaluate_summary_other_policy_is_mean_witness :
  "median"%string <> "max"%string
  /\ evaluate_summary [1;1;1;1]%Z (mk_ndarray2 4 [[1;0;0;0]%Z; [0;1;0;0]%Z]) "median" =
     evaluate_summary [1;1;1;1]%Z (mk_ndarray2 4 [[1;0;0;0]%Z; [0;1;0;0]%Z]) "avg".
Proof.
  assert (H : "median"%string <> "max"%string) by discriminate.
  split; [exact H|].
  exact (proj1 (proj2 (@evaluate_summary_other_policy_is_mean
                         [1;1;1;1]%Z
                         (mk_ndarray2 4 [[1;0;0;0]%Z; [0;1;0;0]%Z]) "median" H))).
Defined.

(** C10.  A user-summary matrix with no annotator row makes [evaluate_summary]
    raise under every policy: [ValueError] from [max] of an empty list under
    ['max'], [ZeroDivisionError] from [0/0] in the mean under any other. *)
Theorem evaluate_summary_no_annotator_raises
    (predicted_summary : list Z) (L : nat) (eval_method : string) :
  evaluate_summary predicted_summary (mk_ndarray2 L []) eval_method =
  Raise (if String.eqb eval_method "max" then ValueError else ZeroDivisionError).
Proof.
  unfold evaluate_summary, f_scores_of. simpl.
  now destruct (String.eqb eval_method "max").
Qed.

(* ================================================================== *)
(** * Order and addition on binary64 *)

Section FloatOrder.

Local Ltac split_compare :=
  repeat match goal with
  | H : context [Z.compare ?a ?b] |- _ => destruct (Z.compare_spec a b)
  | |- context [Z.compare ?a ?b] => destruct (Z.compare_spec a b)
  | H : context [Pos.compare ?a ?b] |- _ => destruct (Pos.compare_spec a b)
  | |- context [Pos.compare ?a ?b] => destruct (Pos.compare_spec a b)
  end.

Local Ltac float_order :=
  unfold F64.ltb, F64.eqb, F64.is_nan, SFltb, SFeqb, SFcompare in *;
  change (Pos.compare_cont Eq) with Pos.compare in *;
  split_compare; simpl in *; subst;
  try discriminate; try lia; auto.

Lemma ltb_asym (a b : spec_float) :
  F64.ltb a b = true -> F64.ltb b a = false.
Proof.
  destruct a as [[]|[]| |[] ma ea], b as [[]|[]| |[] mb eb];
    intros H; float_order.
Qed.

(** Any number that is not NaN falls above the lower or below the upper of
    two ordered numbers. *)
Lemma ltb_cotrans (a x b : spec_float) :
  F64.is_nan x = false ->
  F64.ltb a b = true ->
  F64.ltb a x = true \/ F64.ltb x b = true.
Proof.
  destruct a as [[]|[]| |[] ma ea], b as [[]|[]| |[] mb eb];
    intros Hx H; try discriminate H;
    destruct x as [[]|[]| |[] mx ex]; try discriminate Hx;
    float_order.
Qed.

Lemma ltb_trans (a b c : spec_float) :
  F64.ltb a b = true -> F64.ltb b c = true -> F64.ltb a c = true.
Proof.
  intros Hab Hbc.
  assert (Hb : F64.is_nan b = false) by (destruct b; auto; discriminate Hbc).
  assert (Hc : F64.is_nan c = false).
  { destruct c; auto. destruct b as [[]|[]| |[]]; discriminate Hbc. }
  destruct (@ltb_cotrans a c b Hc Hab) as [H|H]; [exact H|].
  apply ltb_asym in H. congruence.
Qed.

Lemma ltb_incomparable_eqb (a b : spec_float) :
  F64.is_nan a = false -> F64.is_nan b = false ->
  F64.ltb a b = false -> F64.ltb b a = false -> F64.eqb a b = true.
Proof.
  destruct a as [[]|[]| |[] ma ea], b as [[]|[]| |[] mb eb];
    intros Ha Hb H1 H2; try discriminate; float_order.
Qed.

Lemma add_comm (x y : spec_float) : F64.add x y = F64.add y x.
Proof.
  destruct x as [[]|[]| |sx mx ex], y as [[]|[]| |sy my ey]; try reflexivity.
  unfold F64.add, SFadd. rewrite (Z.min_comm ex ey). f_equal. apply Z.add_comm.
Qed.

(** Adding the Python integer 0 (converted to +0.0) is absorbed by a second
    addition. *)
Lemma add_zero_absorb (x : spec_float) :
  F64.add (F64.add (S754_zero false) x) (S754_zero false)
  = F64.add (S754_zero false) x.
Proof.
  destruct x as [[]|[]| |s m e]; reflexivity.
Qed.

Lemma add_zero_swap (x y : spec_float) :
  F64.add (F64.add (S754_zero false) x) y
  = F64.add (F64.add (S754_zero false) y) x.
Proof.
  destruct x as [[]|[]| |sx mx ex], y as [[]|[]| |sy my ey]; try reflexivity.
  change (F64.add (S754_zero false) (S754_finite sx mx ex))
    with (S754_finite sx mx ex).
  change (F64.add (S754_zero false) (S754_finite sy my ey))
    with (S754_finite sy my ey).
  apply add_comm.
Qed.

End FloatOrder.

(* ================================================================== *)
(** * Reduction of the scores and the order of the annotators *)

(** The scores [evaluate_summary] collects: the integer 0 or a binary64. *)
Definition is_score (v : value) : Prop :=
  v = PyInt 0 \/ exists f, v = NpFloat64 f.

Definition max_step (maxitem item : value) : value :=
  if py_gt item maxitem then item else maxitem.

Section MaxOrder.

Lemma py_gt_score (a b : value) :
  is_score a -> is_score b -> py_gt a b = F64.ltb (to_f64 b) (to_f64 a).
Proof.
  intros [->|[fa ->]] [->|[fb ->]]; reflexivity.
Qed.

Lemma py_eq_score (a b : value) :
  is_score a -> is_score b -> py_eq a b = F64.eqb (to_f64 a) (to_f64 b).
Proof.
  intros [->|[fa ->]] [->|[fb ->]]; reflexivity.
Qed.

Lemma score_not_nan (a : value) :
  is_score a -> np_isnan a = false -> F64.is_nan (to_f64 a) = false.
Proof.
  intros [->|[fa ->]] H; [reflexivity|exact H].
Qed.

Let good (v : value) : Prop := is_score v /\ np_isnan v = false.

Lemma fold_max_in (rest : list value) (x : value) :
  In (fold_left max_step rest x) (x :: rest).
Proof.
  revert x. induction rest as [|a rest IH]; intros x; simpl; [auto|].
  destruct (IH (max_step x a)) as [H|H]; [|auto].
  rewrite <- H. unfold max_step. destruct (py_gt a x); auto.
Qed.

(** No element exceeds the maximum kept by the fold. *)
Lemma fold_max_upper (rest : list value) (x : value) :
  Forall good (x :: rest) ->
  forall y, In y (x :: rest) -> py_gt y (fold_left max_step rest x) = false.
Proof.
  revert x. induction rest as [|a rest IH]; intros x Hall y Hy.
  - destruct Hy as [<-|[]]. simpl. inversion Hall as [|? ? [Hs _] _]; subst.
    rewrite py_gt_score by assumption.
    destruct (F64.ltb (to_f64 x) (to_f64 x)) eqn:E; [|reflexivity].
    pose proof (ltb_asym _ _ E). congruence.
  - inversion Hall as [|? ? Hx Hrest]; subst.
    inversion Hrest as [|? ? Ha Hrest']; subst.
    simpl fold_left.
    assert (Hstep : good (max_step x a)).
    { unfold max_step. now destruct (py_gt a x). }
    assert (Hall' : Forall good (max_step x a :: rest)) by now constructor.
    pose proof (IH _ Hall') as Hup.
    set (m := fold_left max_step rest (max_step x a)) in *.
    assert (Hm : good m).
    { rewrite Forall_forall in Hall'. apply Hall'. apply fold_max_in. }
    assert (Hcase : y = x \/ y = a \/ In y rest).
    { destruct Hy as [Hy|[Hy|Hy]]; auto. }
    pose proof (Hup (max_step x a) (or_introl eq_refl)) as Htop.
    destruct Hx as [Hxs Hxn], Ha as [Has Han], Hm as [Hms Hmn].
    unfold max_step in Htop.
    destruct Hcase as [->|[->|Hin]]; [| |apply Hup; now right].
    + destruct (py_gt a x) eqn:Hax; [|exact Htop].
      rewrite py_gt_score in * by assumption.
      destruct (F64.ltb (to_f64 m) (to_f64 x)) eqn:Hmx; [|reflexivity].
      pose proof (ltb_trans _ _ _ Hmx Hax). congruence.
    + destruct (py_gt a x) eqn:Hax; [exact Htop|].
      rewrite py_gt_score in * by assumption.
      destruct (F64.ltb (to_f64 m) (to_f64 a)) eqn:Hma; [|reflexivity].
      destruct (@ltb_cotrans (to_f64 m) (to_f64 x) (to_f64 a)
                  (score_not_nan Hxs Hxn) Hma); congruence.
Qed.

(** Two lists holding the same scores, none of them NaN, have maxima that
    compare equal. *)
Lemma py_max_permutation (xs ys : list value) :
  Permutation xs ys -> xs <> [] ->
  Forall (fun v => is_score v /\ np_isnan v = false) xs ->
  exists v w, py_max xs = Ok v /\ py_max ys = Ok w /\ py_eq v w = true.
Proof.
  intros Hperm Hne Hall.
  assert (Hall' : Forall good ys) by (eapply Permutation_Forall; eauto).
  destruct xs as [|x xs]; [congruence|].
  destruct ys as [|y ys]; [now apply Permutation_sym, Permutation_nil in Hperm|].
  simpl. do 2 eexists. split; [reflexivity|]. split; [reflexivity|].
  fold max_step.
  set (v := fold_left max_step xs x). set (w := fold_left max_step ys y).
  assert (Hv : In v (x :: xs)) by apply fold_max_in.
  assert (Hw : In w (y :: ys)) by apply fold_max_in.
  assert (Hwv : py_gt w v = false).
  { apply fold_max_upper; [exact Hall|].
    eapply Permutation_in; [apply Permutation_sym; exact Hperm|exact Hw]. }
  assert (Hvw : py_gt v w = false).
  { apply fold_max_upper; [exact Hall'|].
    eapply Permutation_in; [exact Hperm|exact Hv]. }
  rewrite Forall_forall in Hall, Hall'.
  destruct (Hall _ Hv) as [Hvs Hvn], (Hall' _ Hw) as [Hws Hwn].
  rewrite py_gt_score in Hwv, Hvw by assumption.
  rewrite py_eq_score by assumption.
  apply ltb_incomparable_eqb; auto using score_not_nan.
Qed.

End MaxOrder.

Section MeanOrder.

Lemma py_add_zero_swap (a b : value) :
  is_score a -> is_score b ->
  py_add (py_add (PyInt 0) a) b = py_add (py_add (PyInt 0) b) a.
Proof.
  intros [->|[fa ->]] [->|[fb ->]]; try reflexivity.
  - change (py_add (py_add (PyInt 0) (PyInt 0)) (NpFloat64 fb))
      with (NpFloat64 (F64.add (S754_zero false) fb)).
    change (py_add (py_add (PyInt 0) (NpFloat64 fb)) (PyInt 0))
      with (NpFloat64 (F64.add (F64.add (S754_zero false) fb) (S754_zero false))).
    now rewrite add_zero_absorb.
  - change (py_add (py_add (PyInt 0) (PyInt 0)) (NpFloat64 fa))
      with (NpFloat64 (F64.add (S754_zero false) fa)).
    change (py_add (py_add (PyInt 0) (NpFloat64 fa)) (PyInt 0))
      with (NpFloat64 (F64.add (F64.add (S754_zero false) fa) (S754_zero false))).
    now rewrite add_zero_absorb.
  - change (py_add (py_add (PyInt 0) (NpFloat64 fa)) (NpFloat64 fb))
      with (NpFloat64 (F64.add (F64.add (S754_zero false) fa) fb)).
    change (py_add (py_add (PyInt 0) (NpFloat64 fb)) (NpFloat64 fa))
      with (NpFloat64 (F64.add (F64.add (S754_zero false) fb) fa)).
    now rewrite add_zero_swap.
Qed.

Lemma map_result_permutation {A B} (f : A -> result B) (xs xs' : list A) :
  Permutation xs xs' ->
  forall ys, map_result f xs = Ok ys ->
  exists ys', map_result f xs' = Ok ys' /\ Permutation ys ys'.
Proof.
  induction 1 as [|a xs xs' _ IH|a b xs|xs1 xs2 xs3 _ IH1 _ IH2]; intros ys H.
  - simpl in H. injection H as <-. exists []. auto.
  - simpl in *. destruct (f a) as [y|]; [|discriminate].
    destruct (map_result f xs) as [ys0|]; [|discriminate].
    injection H as <-. destruct (IH _ eq_refl) as (ys' & -> & Hp).
    exists (y :: ys'). auto.
  - simpl in *. destruct (f b) as [yb|]; [|discriminate].
    destruct (f a) as [ya|]; [|discriminate].
    destruct (map_result f xs) as [ys0|]; [|discriminate].
    injection H as <-. exists (ya :: yb :: ys0). split; [reflexivity|].
    apply perm_swap.
  - destruct (IH1 _ H) as (ys2 & H2 & P12).
    destruct (IH2 _ H2) as (ys3 & H3 & P23).
    exists ys3. split; [exact H3|]. eapply Permutation_trans; eauto.
Qed.

Lemma py_truediv_raises (a b : value) (e : exn) :
  py_truediv a b = Raise e -> e = ZeroDivisionError.
Proof.
  unfold py_truediv. destruct (_ && _); congruence.
Qed.

Lemma user_fscore_raises (S G : list Z) (e : exn) :
  user_fscore S G = Raise e -> e = ZeroDivisionError.
Proof.
  unfold user_fscore.
  destruct (py_truediv _ (sum_array S)) as [p|e1] eqn:Hp; simpl;
    [|intros [= <-]; eapply py_truediv_raises; eauto].
  destruct (py_truediv _ (sum_array G)) as [r|e2] eqn:Hr; simpl;
    [|intros [= <-]; eapply py_truediv_raises; eauto].
  destruct (py_eq _ _); [discriminate|]. apply py_truediv_raises.
Qed.

Lemma user_fscore_score (S G : list Z) (v : value) :
  user_fscore S G = Ok v -> is_score v.
Proof.
  destruct S as [|x S]; [discriminate|].
  destruct G as [|y G].
  - unfold user_fscore. simpl np_and.
    destruct (@sum_array_nonempty (x :: S)) as [z ->]; [discriminate|].
    discriminate.
  - rewrite user_fscore_nonempty by discriminate.
    intros [= <-]. unfold fscore64, is_score.
    destruct (F64.eqb _ _); eauto.
Qed.

End MeanOrder.

Lemma well_shaped_permutation (us : ndarray2) (rows' : list (list Z)) :
  well_shaped us = true -> Permutation (rows us) rows' ->
  well_shaped (mk_ndarray2 (shape1 us) rows') = true.
Proof.
  intros Hws Hperm. unfold well_shaped in *. simpl.
  rewrite forallb_forall in *. intros r Hr. apply Hws.
  eapply Permutation_in; [apply Permutation_sym; exact Hperm|exact Hr].
Qed.

Lemma map_result_scores (S : list Z) (n : nat) (rs : list (list Z)) (fs : list value) :
  map_result (fun row => user_fscore S (pad_zeros n row)) rs = Ok fs ->
  Forall is_score fs.
Proof.
  revert fs. induction rs as [|r rs IH]; intros fs H; simpl in H.
  - injection H as <-. constructor.
  - destruct (user_fscore S (pad_zeros n r)) as [f|] eqn:Hf; [|discriminate].
    destruct (map_result _ rs) as [fs0|]; [|discriminate].
    injection H as <-. constructor; [eapply user_fscore_score; eauto|auto].
Qed.

(** C7 (as amended).  Permuting the annotator rows permutes the per-annotator
    scores.  Under ['max'] the two returned values compare equal as soon as no
    per-annotator score is NaN; under ['avg'] the returned value is unchanged
    for matrices of at most two annotator rows. *)
Theorem evaluate_summary_row_permutation
    (predicted_summary : list Z) (user_summary : ndarray2) (rows' : list (list Z)) :
  well_shaped user_summary = true ->
  Permutation (rows user_summary) rows' ->
  let permuted := mk_ndarray2 (shape1 user_summary) rows' in
  (forall f_scores,
      f_scores_of predicted_summary user_summary = Ok f_scores ->
      exists f_scores',
        f_scores_of predicted_summary permuted = Ok f_scores'
        /\ Permutation f_scores f_scores')
  /\ (forall f_scores,
         f_scores_of predicted_summary user_summary = Ok f_scores ->
         f_scores <> [] ->
         Forall (fun v => np_isnan v = false) f_scores ->
         exists v w,
           evaluate_summary predicted_summary user_summary "max" = Ok v
           /\ evaluate_summary predicted_summary permuted "max" = Ok w
           /\ py_eq v w = true)
  /\ (length (rows user_summary) <= 2 ->
      evaluate_summary predicted_summary user_summary "avg"
      = evaluate_summary predicted_summary permuted "avg").
Proof.
  intros Hws Hperm permuted.
  pose proof (well_shaped_permutation _ Hws Hperm) as Hws'. fold permuted in Hws'.
  pose proof (@f_scores_of_padded predicted_summary user_summary Hws) as E.
  pose proof (@f_scores_of_padded predicted_summary permuted Hws') as E'.
  cbv zeta in E, E'. simpl shape1 in E'. simpl rows in E'.
  set (max_len := Nat.max _ _) in *.
  set (g := fun row => user_fscore (pad_zeros max_len predicted_summary)
                                   (pad_zeros max_len row)) in *.
  assert (Hscores : forall fs,
             f_scores_of predicted_summary user_summary = Ok fs ->
             exists fs', f_scores_of predicted_summary permuted = Ok fs'
                         /\ Permutation fs fs').
  { intros fs Hfs. rewrite E in Hfs. rewrite E'.
    eapply map_result_permutation; eauto. }
  split; [exact Hscores|]. split.
  - intros fs Hfs Hne Hnan.
    destruct (Hscores fs Hfs) as (fs' & Hfs' & Hp).
    assert (Hsc : Forall is_score fs).
    { rewrite E in Hfs. eapply map_result_scores; eauto. }
    assert (Hgood : Forall (fun v => is_score v /\ np_isnan v = false) fs).
    { rewrite Forall_forall in *. auto. }
    destruct (py_max_permutation Hp Hne Hgood) as (v & w & Hv & Hw & Hvw).
    exists v, w. unfold evaluate_summary. rewrite Hfs, Hfs'. simpl. auto.
  - intros Hlen. unfold evaluate_summary. rewrite E, E'.
    destruct (rows user_summary) as [|a [|b [|c rest]]].
    + apply Permutation_nil in Hperm. now subst rows'.
    + apply Permutation_length_1_inv in Hperm. now subst rows'.
    + apply Permutation_length_2_inv in Hperm.
      destruct Hperm as [->| ->]; [reflexivity|]. simpl map_result.
      destruct (g a) as [fa|ea] eqn:Ha, (g b) as [fb|eb] eqn:Hb; simpl.
      * f_equal. unfold py_sum. simpl.
        apply py_add_zero_swap; eapply user_fscore_score; eauto.
      * reflexivity.
      * reflexivity.
      * apply user_fscore_raises in Ha, Hb. now subst.
    + simpl in Hlen. lia.
Qed.

Lemma evaluate_summary_row_permutation_witness :
  well_shaped (mk_ndarray2 4 [[1;1;0;0]%Z; [0;1;1;1]%Z; [1;0;0;0]%Z]) = true
  /\ Permutation [[1;1;0;0]%Z; [0;1;1;1]%Z; [1;0;0;0]%Z]
                 [[0;1;1;1]%Z; [1;0;0;0]%Z; [1;1;0;0]%Z]
  /\ exists v w,
       evaluate_summary [1;1;0;0]%Z
         (mk_ndarray2 4 [[1;1;0;0]%Z; [0;1;1;1]%Z; [1;0;0;0]%Z]) "max" = Ok v
       /\ evaluate_summary [1;1;0;0]%Z
            (mk_ndarray2 4 [[0;1;1;1]%Z; [1;0;0;0]%Z; [1;1;0;0]%Z]) "max" = Ok w
       /\ py_eq v w = true.
Proof.
  assert (Hws : well_shaped
                  (mk_ndarray2 4 [[1;1;0;0]%Z; [0;1;1;1]%Z; [1;0;0;0]%Z]) = true)
    by reflexivity.
  assert (Hperm : Permutation [[1;1;0;0]%Z; [0;1;1;1]%Z; [1;0;0;0]%Z]
                              [[0;1;1;1]%Z; [1;0;0;0]%Z; [1;1;0;0]%Z]).
  { apply (Permutation_cons_app [_; _] []). reflexivity. }
  split; [exact Hws|]. split; [exact Hperm|].
  pose proof (proj1 (proj2 (@evaluate_summary_row_permutation
                              [1;1;0;0]%Z _ _ Hws Hperm))) as H.
  refine (H _ eq_refl _ _).
  - discriminate.
  - repeat constructor.
Defined.

(** C7, counterexample.  Under ['max'], an annotator row that selects no frame
    scores NaN, and [max] keeps or drops it according to its position; under
    ['avg'], three scores summed in another order round differently. *)
Lemma evaluate_summary_row_order_matters :
  (Permutation [[0;0]%Z; [1;0]%Z] [[1;0]%Z; [0;0]%Z]
   /\ evaluate_summary [1;0]%Z (mk_ndarray2 2 [[0;0]%Z; [1;0]%Z]) "max"
      = Ok (NpFloat64 S754_nan)
   /\ evaluate_summary [1;0]%Z (mk_ndarray2 2 [[1;0]%Z; [0;0]%Z]) "max"
      = Ok (NpFloat64 (S754_finite false 7036874417766400 (-46)))
   /\ evaluate_summary [1;0]%Z (mk_ndarray2 2 [[0;0]%Z; [1;0]%Z]) "max"
      <> evaluate_summary [1;0]%Z (mk_ndarray2 2 [[1;0]%Z; [0;0]%Z]) "max")
  /\ (Permutation [[0;0;0;1]%Z; [0;0;1;1]%Z; [0;1;1;1]%Z]
                  [[0;0;1;1]%Z; [0;1;1;1]%Z; [0;0;0;1]%Z]
      /\ evaluate_summary [0;0;0;1]%Z
           (mk_ndarray2 4 [[0;0;0;1]%Z; [0;0;1;1]%Z; [0;1;1;1]%Z]) "avg"
         = Ok (NpFloat64 (S754_finite false 5082187079497956 (-46)))
      /\ evaluate_summary [0;0;0;1]%Z
           (mk_ndarray2 4 [[0;0;1;1]%Z; [0;1;1;1]%Z; [0;0;0;1]%Z]) "avg"
         = Ok (NpFloat64 (S754_finite false 5082187079497955 (-46)))
      /\ evaluate_summary [0;0;0;1]%Z
           (mk_ndarray2 4 [[0;0;0;1]%Z; [0;0;1;1]%Z; [0;1;1;1]%Z]) "avg"
         <> evaluate_summary [0;0;0;1]%Z
              (mk_ndarray2 4 [[0;0;1;1]%Z; [0;1;1;1]%Z; [0;0;0;1]%Z]) "avg").
Proof.
  split.
  - split; [apply perm_swap|].
    split; [vm_compute; reflexivity|]. split; [vm_compute; reflexivity|].
    vm_compute. discriminate.
  - split; [apply (Permutation_cons_app [_; _] []); reflexivity|].
    split; [vm_compute; reflexivity|]. split; [vm_compute; reflexivity|].
    vm_compute. discriminate.
Qed.


(* ================================================================== *)
(** * The weight initializer *)

(** [sub in s] *)
Fixpoint contains (sub s : string) : bool :=
  if String.prefix sub s then true
  else match s with
       | EmptyString => false
       | String _ s' => contains sub s'
       end.

(** The literal [0.1], and [np.sqrt(2.0)], as binary64. *)
Definition c_0_1 : spec_float := S754_finite false 7205759403792794 (-56).
Definition sqrt_2 : spec_float := SFsqrt F64.prec F64.emax (F64.of_Z 2).

Section InitWeights.

(** Parameter tensors and the in-place initializers of [torch.nn.init].  The
    random ones draw from the generator state, which they advance; each either
    returns what the tensor holds after the call, or raises and leaves the
    tensor and the generator as they were ([xavier_uniform_],
    [kaiming_uniform_] and [orthogonal_] raise [ValueError] on a tensor with
    fewer than two dimensions, before they write anything).  [constant_] fills
    the tensor and always returns. *)
Variable tensor : Type.
Variable generator : Type.
Variable normal_ :
  generator -> tensor -> spec_float -> spec_float -> result (tensor * generator).
Variable xavier_uniform_ :
  generator -> tensor -> spec_float -> result (tensor * generator).
Variable kaiming_uniform_ :
  generator -> tensor -> string -> string -> result (tensor * generator).
Variable orthogonal_ :
  generator -> tensor -> spec_float -> result (tensor * generator).
Variable constant_ : tensor -> spec_float -> tensor.

(** [net.named_parameters()], in iteration order. *)
Definition named_parameters : Type := list (string * tensor).

(** The dispatch on [init_type] inside the ['weight'] branch. *)
Definition init_weight_param (g : generator) (param : tensor)
    (init_type : string) (init_gain : spec_float) : result (tensor * generator) :=
  if String.eqb init_type "normal" then
    normal_ g param (S754_zero false) init_gain
  else if String.eqb init_type "xavier" then
    xavier_uniform_ g param sqrt_2
  else if String.eqb init_type "kaiming" then
    kaiming_uniform_ g param "fan_in" "relu"
  else if String.eqb init_type "orthogonal" then
    orthogonal_ g param sqrt_2
  else
    Raise (NotImplementedError
             ("initialization method " ++ init_type ++ " is not implemented.")).

(** [init_weights(net, init_type, init_gain)]: returns the generator state and
    the parameters as the call leaves them, with its outcome.  When the call
    raises, whether from the [else] branch or from an initializer, the
    parameters visited before keep what was written to them and the others are
    as they were. *)
Fixpoint init_weights (g : generator) (net : named_parameters)
    (init_type : string) (init_gain : spec_float)
    : generator * named_parameters * result unit :=
  match net with
  | [] => (g, [], Ok tt)
  | (name, param) :: rest =>
      if contains "weight" name && negb (contains "norm" name) then
        match init_weight_param g param init_type init_gain with
        | Ok (param', g') =>
            let '(g'', rest', r) := init_weights g' rest init_type init_gain in
            (g'', (name, param') :: rest', r)
        | Raise e => (g, net, Raise e)
        end
      else if contains "bias" name then
        let '(g', rest', r) := init_weights g rest init_type init_gain in
        (g', (name, constant_ param c_0_1) :: rest', r)
      else
        let '(g', rest', r) := init_weights g rest init_type init_gain in
        (g', (name, param) :: rest', r)
  end.














(** X7.  Whatever the policy, and whether or not it raises, [init_weights]
    leaves a network with the same parameter names in the same order: it only
    overwrites contents. *)
Theorem init_weights_keeps_names (g : generator) (net : named_parameters)
    (init_type : string) (init_gain : spec_float) :
  map fst (snd (fst (init_weights g net init_type init_gain))) = map fst net.
Proof.
  revert g. induction net as [|[name param] rest IH]; intros g; [reflexivity|].
  cbn [init_weights].
  destruct (contains "weight" name && negb (contains "norm" name)).
  - destruct (init_weight_param g param init_type init_gain) as [[param' g']|e];
      [|reflexivity].
    specialize (IH g').
    destruct (init_weights g' rest init_type init_gain) as [[g'' rest'] r].
    simpl in *. now rewrite IH.
  - destruct (contains "bias" name); specialize (IH g);
      destruct (init_weights g rest init_type init_gain) as [[g'' rest'] r];
      simpl in *; now rewrite IH.
Qed.

(** X8.  [init_gain] is used by the ['normal'] policy only: under any other
    policy name two calls that differ in [init_gain] alone have the same
    outcome. *)
Theorem init_weights_gain_only_for_normal (g : generator) (net : named_parameters)
    (init_type : string) (gain1 gain2 : spec_float) :
  init_type <> "normal"%string ->
  init_weights g net init_type gain1 = init_weights g net init_type gain2.
Proof.
  intros Hn. apply String.eqb_neq in Hn.
  assert (Hp : forall g param,
             init_weight_param g param init_type gain1
             = init_weight_param g param init_type gain2).
  { intros g0 param. unfold init_weight_param. now rewrite Hn. }
  revert g. induction net as [|[name param] rest IH]; intros g; [reflexivity|].
  cbn [init_weights]. rewrite Hp.
  destruct (contains "weight" name && negb (contains "norm" name)).
  - destruct (init_weight_param g param init_type gain2) as [[param' g']|e];
      [|reflexivity].
    now rewrite IH.
  - now rewrite IH.
Qed.

End InitWeights.

(** A symbolic tensor model.  A tensor has a shape (no dimension is empty) and
    is fresh from construction, holds the [draw]-th sample of a random
    initializer, or is filled with a constant. *)
Inductive contents : Type :=
| Fresh
| Drawn (initializer : string) (draw : nat)
| Filled (c : spec_float).

Record sym_tensor : Type := mk_sym_tensor {
  tensor_shape : list positive;
  tensor_data : contents
}.

Definition sym_draw (initializer : string) (g : nat) (t : sym_tensor)
    : result (sym_tensor * nat) :=
  Ok (mk_sym_tensor (tensor_shape t) (Drawn initializer g), S g).

(** [normal_] accepts any shape and checks [std >= 0.0]. *)
Definition sym_normal_ (g : nat) (t : sym_tensor) (mean std : spec_float)
    : result (sym_tensor * nat) :=
  if SFleb (S754_zero false) std then sym_draw "normal_" g t
  else Raise RuntimeError.

(** [xavier_uniform_] and [kaiming_uniform_] compute the fans of the tensor,
    which raises [ValueError] below two dimensions; [orthogonal_] makes the
    same test itself. *)
Definition sym_xavier_uniform_ (g : nat) (t : sym_tensor) (gain : spec_float)
    : result (sym_tensor * nat) :=
  if length (tensor_shape t) <? 2 then Raise ValueError
  else sym_draw "xavier_uniform_" g t.

Definition sym_kaiming_uniform_ (g : nat) (t : sym_tensor)
    (mode nonlinearity : string) : result (sym_tensor * nat) :=
  if length (tensor_shape t) <? 2 then Raise ValueError
  else sym_draw "kaiming_uniform_" g t.

Definition sym_orthogonal_ (g : nat) (t : sym_tensor) (gain : spec_float)
    : result (sym_tensor * nat) :=
  if length (tensor_shape t) <? 2 then Raise ValueError
  else sym_draw "orthogonal_" g t.

Definition sym_constant_ (t : sym_tensor) (c : spec_float) : sym_tensor :=
  mk_sym_tensor (tensor_shape t) (Filled c).

Definition sym_init_weights :=
  @init_weights sym_tensor nat
    sym_normal_ sym_xavier_uniform_ sym_kaiming_uniform_ sym_orthogonal_
    sym_constant_.

(** A fresh tensor of the given shape. *)
Definition fresh (shape : list positive) : sym_tensor := mk_sym_tensor shape Fresh.



Lemma init_weights_gain_only_for_normal_witness :
  "orthogonal"%string <> "normal"%string
  /\ sym_init_weights 0
       [("fc.weight"%string, fresh [2; 2]%positive);
        ("fc.bias"%string, fresh [2]%positive)]
       "orthogonal" (S754_zero false)
     = sym_init_weights 0
         [("fc.weight"%string, fresh [2; 2]%positive);
          ("fc.bias"%string, fresh [2]%positive)]
         "orthogonal" c_0_1.
Proof.
  assert (H : "orthogonal"%string <> "normal"%string) by discriminate.
  split; [exact H|].
  exact (@init_weights_gain_only_for_normal sym_tensor nat
           sym_normal_ sym_xavier_uniform_ sym_kaiming_uniform_ sym_orthogonal_
           sym_constant_
           0 [("fc.weight"%string, fresh [2; 2]%positive);
              ("fc.bias"%string, fresh [2]%positive)]
           "orthogonal" (S754_zero false) c_0_1 H).
Defined.

(* ================================================================== *)
(** * The truncated binary64 quotient of two sizes *)

Unset Implicit Arguments.

Section Quotient.

Local Open Scope Z_scope.

Lemma digits2_size (p : positive) : digits2_pos p = Pos.size p.
Proof. induction p; simpl; congruence. Qed.

Lemma digits2_bounds (p : positive) :
  2 ^ (Zpos (digits2_pos p) - 1) <= Zpos p < 2 ^ Zpos (digits2_pos p).
Proof.
  rewrite digits2_size. split.
  - pose proof (Pos.size_le p) as H.
    assert (Hz : Zpos (2 ^ Pos.size p) <= Zpos p~0) by exact H.
    rewrite Pos2Z.inj_pow in Hz. 
    replace (Zpos (Pos.size p)) with (Zpos (Pos.size p) - 1 + 1) in Hz by lia.
    rewrite Z.pow_add_r in Hz by lia. change (2^1) with 2 in Hz. lia.
  - pose proof (Pos.size_gt p) as H.
    assert (Hz : Zpos p < Zpos (2 ^ Pos.size p)) by exact H.
    now rewrite Pos2Z.inj_pow in Hz.
Qed.

(** The number of digits is determined by the enclosing powers of two. *)
Lemma digits2_unique (p : positive) (d : Z) :
  2 ^ (d - 1) <= Zpos p < 2 ^ d -> 0 < d -> Zpos (digits2_pos p) = d.
Proof.
  intros [Hlo Hhi] Hd. pose proof (digits2_bounds p) as [Hlo' Hhi'].
  set (d' := Zpos (digits2_pos p)) in *.
  assert (Hd' : 0 < d') by (subst d'; lia).
  destruct (Z.lt_trichotomy d' d) as [H|[H|H]]; [|exact H|].
  - exfalso. assert (2 ^ d' <= 2 ^ (d - 1)) by (apply Z.pow_le_mono_r; lia). lia.
  - exfalso. assert (2 ^ d <= 2 ^ (d' - 1)) by (apply Z.pow_le_mono_r; lia). lia.
Qed.

Lemma iter_xO (p k : positive) : Zpos (Pos.iter xO p k) = Zpos p * 2 ^ Zpos k.
Proof.
  induction k using Pos.peano_ind.
  - simpl. lia.
  - rewrite Pos.iter_succ, Pos2Z.inj_succ, Z.pow_succ_r by lia.
    rewrite Pos2Z.inj_xO, IHk. lia.
Qed.


Lemma fexp_normal (e : Z) : -1021 <= e -> fexp F64.prec F64.emax e = e - 53.
Proof.
  intros H. unfold fexp, emin, F64.prec, F64.emax. lia.
Qed.

(** A 53-digit mantissa with an exponent in range is left as it is. *)
Lemma round_aux_exact (s : bool) (m : positive) (e : Z) :
  Zpos (digits2_pos m) = 53 -> -1074 <= e <= 971 ->
  binary_round_aux F64.prec F64.emax s (Zpos m) e loc_Exact = S754_finite s m e.
Proof.
  intros Hd He. unfold binary_round_aux, shr_fexp. simpl Zdigits2.
  rewrite Hd. rewrite (fexp_normal (53 + e)) by lia.
  replace (53 + e - 53 - e) with 0 by lia.
  cbn [shr shr_record_of_loc shr_m loc_of_shr_record round_nearest_even Zdigits2].
  rewrite Hd. rewrite (fexp_normal (53 + e)) by lia.
  replace (53 + e - 53 - e) with 0 by lia.
  cbn [shr shr_record_of_loc shr_m].
  replace (e <=? F64.emax - F64.prec) with true; [reflexivity|].
  symmetry. apply Z.leb_le. unfold F64.emax, F64.prec. lia.
Qed.

Lemma of_Z_pos (p : positive) :
  Zpos p < 2 ^ 53 ->
  exists m, F64.of_Z (Zpos p) = S754_finite false m (Zpos (digits2_pos p) - 53)
            /\ Zpos m = Zpos p * 2 ^ (53 - Zpos (digits2_pos p))
            /\ Zpos (digits2_pos m) = 53.
Proof.
  intros Hp. pose proof (digits2_bounds p) as [Hlo Hhi].
  set (d := Zpos (digits2_pos p)) in *.
  assert (Hd : 0 < d <= 53).
  { split; [subst d; lia|].
    destruct (Z_le_gt_dec d 53) as [H|H]; [exact H|].
    assert (2 ^ 53 <= 2 ^ (d - 1)) by (apply Z.pow_le_mono_r; lia). lia. }
  unfold F64.of_Z, binary_normalize, binary_round. fold d.
  rewrite Z.add_0_r, fexp_normal by lia.
  unfold shl_align. rewrite Z.sub_0_r.
  destruct (d - 53) as [|k|k] eqn:Hk; try lia.
  - exists p. rewrite round_aux_exact by (fold d; lia).
    replace (53 - d) with 0 by lia. fold d. repeat split; lia.
  - assert (Hm : Zpos (Pos.iter xO p k) = Zpos p * 2 ^ (53 - d)).
    { rewrite iter_xO. f_equal. f_equal. lia. }
    assert (Hdm : Zpos (digits2_pos (Pos.iter xO p k)) = 53).
    { apply digits2_unique; [|lia]. rewrite Hm.
      replace (2 ^ (53 - 1)) with (2 ^ (d - 1) * 2 ^ (53 - d))
        by (rewrite <- Z.pow_add_r by lia; f_equal; lia).
      replace (2 ^ 53) with (2 ^ d * 2 ^ (53 - d))
        by (rewrite <- Z.pow_add_r by lia; f_equal; lia).
      assert (0 < 2 ^ (53 - d)) by (apply Z.pow_pos_nonneg; lia).
      split; nia. }
    exists (Pos.iter xO p k). rewrite round_aux_exact by (try exact Hdm; lia).
    repeat split; auto. 
Qed.

Definition finish (s : bool) (mr e : Z) : spec_float :=
  let '(mrs'', e'') := shr_fexp F64.prec F64.emax mr e loc_Exact in
  match shr_m mrs'' with
  | Z0 => S754_zero s
  | Zpos m => if e'' <=? F64.emax - F64.prec then S754_finite s m e'' else S754_infinity s
  | Zneg _ => S754_nan
  end.

Lemma round_aux_finish (s : bool) (mx ex : Z) (lx : location) :
  binary_round_aux F64.prec F64.emax s mx ex lx =
  let '(mrs', e') := shr_fexp F64.prec F64.emax mx ex lx in
  finish s (round_nearest_even (shr_m mrs') (loc_of_shr_record mrs')) e'.
Proof. reflexivity. Qed.

Lemma finish_spec (s : bool) (mr : positive) (e : Z) :
  2 ^ 52 <= Zpos mr <= 2 ^ 53 -> -1074 <= e <= 970 ->
  exists m e2, finish s (Zpos mr) e = S754_finite s m e2
               /\ e <= e2 <= e + 1
               /\ Zpos m * 2 ^ (e2 - e) = Zpos mr.
Proof.
  intros Hm He.
  destruct (Z.eq_dec (Zpos mr) (2 ^ 53)) as [E|NE].
  - assert (mr = 9007199254740992%positive) by (apply Pos2Z.inj; exact E).
    subst mr. exists 4503599627370496%positive, (e + 1).
    unfold finish, shr_fexp. 
    change (Zdigits2 (Zpos 9007199254740992)) with 54.
    rewrite (fexp_normal (54 + e)) by lia.
    replace (54 + e - 53 - e) with 1 by lia.
    cbn [shr shr_record_of_loc iter_pos shr_1 shr_m orb].
    replace (e + 1 <=? F64.emax - F64.prec) with true
      by (symmetry; apply Z.leb_le; unfold F64.emax, F64.prec; lia).
    split; [reflexivity|]. split; [lia|].
    replace (e + 1 - e) with 1 by lia. reflexivity.
  - assert (Hd : Zpos (digits2_pos mr) = 53)
      by (apply digits2_unique; [change (53 - 1) with 52|]; lia).
    exists mr, e. unfold finish, shr_fexp. simpl Zdigits2. rewrite Hd.
    rewrite (fexp_normal (53 + e)) by lia.
    replace (53 + e - 53 - e) with 0 by lia.
    cbn [shr shr_record_of_loc shr_m].
    replace (e <=? F64.emax - F64.prec) with true
      by (symmetry; apply Z.leb_le; unfold F64.emax, F64.prec; lia).
    split; [reflexivity|]. split; [lia|].
    rewrite Z.sub_diag. simpl. lia.
Qed.

Lemma loc_of_record_of_loc (m : Z) (l : location) :
  loc_of_shr_record (shr_record_of_loc m l) = l.
Proof. destruct l as [|[]]; reflexivity. Qed.

Lemma round_nearest_even_cases (m : Z) (l : location) :
  round_nearest_even m l = m \/ round_nearest_even m l = m + 1.
Proof.
  destruct l as [|[]]; simpl; auto. destruct (Z.even m); auto.
Qed.

(** Rounding the quotient: the result is the quotient cut to 53 bits, or the
    integer next to the quotient. *)
Lemma round_aux_quotient (q : positive) (e : Z) (loc : location) :
  2 ^ 52 <= Zpos q < 2 ^ 54 -> -1074 <= e <= 900 ->
  exists m e2,
    binary_round_aux F64.prec F64.emax false (Zpos q) e loc = S754_finite false m e2
    /\ e <= e2 <= e + 2
    /\ (Zpos m * 2 ^ (e2 - e) = Zpos q
        \/ Zpos m * 2 ^ (e2 - e) = Zpos q + 1
        \/ (Zpos m * 2 ^ (e2 - e) = Zpos q - 1 /\ Z.odd (Zpos q) = true /\ 2 ^ 53 <= Zpos q)).
Proof.
  intros Hq He. rewrite round_aux_finish. unfold shr_fexp.
  destruct (Z_lt_le_dec (Zpos q) (2 ^ 53)) as [Hlt|Hge].
  - (* 53 digits: no shift *)
    assert (Hd : Zdigits2 (Zpos q) = 53)
      by (apply digits2_unique; [change (53 - 1) with 52|]; lia).
    rewrite Hd, (fexp_normal (53 + e)) by lia.
    replace (53 + e - 53 - e) with 0 by lia.
    cbn [shr]. rewrite loc_of_record_of_loc.
    replace (shr_m (shr_record_of_loc (Zpos q) loc)) with (Zpos q)
      by (destruct loc as [|[]]; reflexivity).
    destruct (round_nearest_even_cases (Zpos q) loc) as [-> | ->].
    + destruct (@finish_spec false q e) as (m & e2 & -> & He2 & Hv); [lia|lia|].
      exists m, e2. split; [reflexivity|]. split; [lia|]. now left.
    + replace (Zpos q + 1) with (Zpos (q + 1)) by lia.
      destruct (@finish_spec false (q + 1) e) as (m & e2 & -> & He2 & Hv);
        [lia|lia|].
      exists m, e2. split; [reflexivity|]. split; [lia|]. right. left. lia.
  - (* 54 digits: one bit is shifted out *)
    assert (Hd : Zdigits2 (Zpos q) = 54)
      by (apply digits2_unique; [change (54 - 1) with 53|]; lia).
    rewrite Hd, (fexp_normal (54 + e)) by lia.
    replace (54 + e - 53 - e) with 1 by lia.
    cbn [shr iter_pos].
    destruct q as [p|p|].
    + (* odd *)
      assert (Hp : 2 ^ 52 <= Zpos p < 2 ^ 53) by lia.
      replace (shr_1 (shr_record_of_loc (Zpos p~1) loc))
        with (Build_shr_record (Zpos p) true
                (shr_r (shr_record_of_loc (Zpos p~1) loc)
                 || shr_s (shr_record_of_loc (Zpos p~1) loc)))
        by (destruct loc as [|[]]; reflexivity).
      cbn [shr_m].
      destruct (round_nearest_even_cases (Zpos p)
                  (loc_of_shr_record
                     (Build_shr_record (Zpos p) true
                        (shr_r (shr_record_of_loc (Zpos p~1) loc)
                         || shr_s (shr_record_of_loc (Zpos p~1) loc)))))
        as [-> | ->].
      * destruct (@finish_spec false p (e + 1)) as (m & e2 & -> & He2 & Hv);
          [lia|lia|].
        exists m, e2. split; [reflexivity|]. split; [lia|]. right. right.
        split; [|split; [reflexivity|lia]].
        replace (e2 - e) with (1 + (e2 - (e + 1))) by lia.
        rewrite Z.pow_add_r by lia. change (2 ^ 1) with 2. lia.
      * replace (Zpos p + 1) with (Zpos (p + 1)) by lia.
        destruct (@finish_spec false (p + 1) (e + 1)) as (m & e2 & -> & He2 & Hv);
          [lia|lia|].
        exists m, e2. split; [reflexivity|]. split; [lia|]. right. left.
        replace (e2 - e) with (1 + (e2 - (e + 1))) by lia.
        rewrite Z.pow_add_r by lia. change (2 ^ 1) with 2. lia.
    + (* even: the shifted-out bit is 0, the mantissa is kept *)
      assert (Hp : 2 ^ 52 <= Zpos p < 2 ^ 53) by lia.
      replace (shr_1 (shr_record_of_loc (Zpos p~0) loc))
        with (Build_shr_record (Zpos p) false
                (shr_r (shr_record_of_loc (Zpos p~0) loc)
                 || shr_s (shr_record_of_loc (Zpos p~0) loc)))
        by (destruct loc as [|[]]; reflexivity).
      cbn [shr_m].
      replace (round_nearest_even (Zpos p) _) with (Zpos p)
        by (destruct (_ || _); reflexivity).
      destruct (@finish_spec false p (e + 1)) as (m & e2 & -> & He2 & Hv);
        [lia|lia|].
      exists m, e2. split; [reflexivity|]. split; [lia|]. left.
      replace (e2 - e) with (1 + (e2 - (e + 1))) by lia.
      rewrite Z.pow_add_r by lia. change (2 ^ 1) with 2. lia.
    + exfalso. change (Zpos 1) with 1 in Hge. 
      assert (0 < 2 ^ 53) by (apply Z.pow_pos_nonneg; lia). lia.
Qed.

(** The integer part of [m * 2^e2], through a scaled mantissa. *)
Lemma shiftl_scaled (m e2 E V : Z) :
  0 < m -> 0 <= E -> 0 <= e2 + E -> V = m * 2 ^ (e2 + E) ->
  Z.shiftl m e2 = V / 2 ^ E.
Proof.
  intros Hm HE Hs ->.
  destruct (Z_le_gt_dec 0 e2) as [H|H].
  - rewrite Z.shiftl_mul_pow2 by lia.
    rewrite Z.pow_add_r by lia. rewrite Z.mul_assoc.
    rewrite Z.div_mul; [reflexivity|]. apply Z.pow_nonzero; lia.
  - rewrite Z.shiftl_div_pow2 by lia.
    replace (2 ^ E) with (2 ^ (e2 + E) * 2 ^ (- e2))
      by (rewrite <- Z.pow_add_r by lia; f_equal; lia).
    rewrite (Z.mul_comm m).
    rewrite Z.div_mul_cancel_l; [reflexivity| |];
      apply Z.pow_nonzero; lia.
Qed.

(** The successor of the quotient of [n * 2^E] by [b < 2^E] is no multiple of
    [2^E]: rounding up never reaches the next integer. *)
Lemma quotient_succ_not_multiple (n b E : Z) :
  0 <= n -> 0 < b < 2 ^ E -> 0 <= E ->
  ((n * 2 ^ E) / b + 1) / 2 ^ E = n / b.
Proof.
  intros Hn Hb HE.
  assert (HP : 0 < 2 ^ E) by (apply Z.pow_pos_nonneg; lia).
  set (P := 2 ^ E) in *.
  pose proof (Z.div_mod (n * P) b ltac:(lia)) as Hdm.
  pose proof (Z.mod_pos_bound (n * P) b ltac:(lia)) as Hr.
  set (q := n * P / b) in *. set (r := (n * P) mod b) in *.
  pose proof (Z.div_mod n b ltac:(lia)) as Hdm'.
  pose proof (Z.mod_pos_bound n b ltac:(lia)) as Hr'.
  set (Q := n / b) in *. set (R := n mod b) in *.
  symmetry. apply Z.div_unique with (r := q + 1 - P * Q); [|lia].
  left. split.
  - (* Q * P <= q + 1 *)
    assert (Q * P * b <= n * P) by nia.
    assert (Q * P <= q) by (apply Z.div_le_lower_bound; lia).
    lia.
  - (* q + 1 < (Q + 1) * P *)
    assert (q * b <= n * P) by lia.
    assert (n + 1 <= (Q + 1) * b) by lia.
    assert (H1 : q < (Q + 1) * P).
    { apply Z.div_lt_upper_bound; [lia|]. nia. }
    destruct (Z.eq_dec (q + 1) ((Q + 1) * P)) as [E1|NE]; [|lia].
    exfalso.
    assert (b - r = P * ((Q + 1) * b - n)) by nia.
    assert (1 <= (Q + 1) * b - n) by lia.
    nia.
Qed.

Lemma quotient_div (n b E : Z) :
  0 <= n -> 0 < b -> 0 <= E -> ((n * 2 ^ E) / b) / 2 ^ E = n / b.
Proof.
  intros Hn Hb HE.
  assert (HP : 0 < 2 ^ E) by (apply Z.pow_pos_nonneg; lia).
  rewrite Z.div_div by lia. rewrite (Z.mul_comm b).
  rewrite <- Z.div_div by lia. now rewrite Z.div_mul by lia.
Qed.

Lemma pred_odd_div (q E : Z) :
  0 < q -> Z.odd q = true -> 1 <= E -> (q - 1) / 2 ^ E = q / 2 ^ E.
Proof.
  intros Hq Hodd HE.
  replace (2 ^ E) with (2 * 2 ^ (E - 1))
    by (rewrite <- Z.pow_succ_r by lia; f_equal; lia).
  assert (0 < 2 ^ (E - 1)) by (apply Z.pow_pos_nonneg; lia).
  rewrite <- !Z.div_div by lia. f_equal.
  rewrite (Zodd_div2 q) at 2 by (now apply Zodd_bool_iff).
  rewrite (Zodd_div2 q) at 1 by (now apply Zodd_bool_iff).
  replace (2 * Z.div2 q + 1 - 1) with (Z.div2 q * 2) by lia.
  rewrite Z.div_mul by lia.
  apply Z.div_unique with (r := 1); lia.
Qed.

Lemma div_core_normal (m1 m2 : positive) (e1 e2 : Z) :
  Zpos (digits2_pos m1) = 53 -> Zpos (digits2_pos m2) = 53 ->
  -52 <= e1 <= 0 -> -52 <= e2 <= 0 ->
  SFdiv_core_binary F64.prec F64.emax (Zpos m1) e1 (Zpos m2) e2 =
  ((Zpos m1 * 2 ^ 53) / Zpos m2, e1 - e2 - 53,
   new_location (Zpos m2) ((Zpos m1 * 2 ^ 53) mod Zpos m2)).
Proof.
  intros H1 H2 He1 He2. unfold SFdiv_core_binary. simpl Zdigits2.
  rewrite H1, H2. rewrite (fexp_normal (53 + e1 - (53 + e2))) by lia.
  rewrite Z.min_l by lia.
  replace (e1 - e2 - (53 + e1 - (53 + e2) - 53)) with 53 by lia.
  rewrite Z.shiftl_mul_pow2 by lia.
  unfold Z.div, Z.modulo.
  destruct (Z.div_eucl (Zpos m1 * 2 ^ 53) (Zpos m2)) as [q r].
  f_equal. f_equal. lia.
Qed.

Lemma div_of_Z_trunc (pn pb : positive) :
  Zpos pn < 2 ^ 53 -> Zpos pb < 2 ^ 53 ->
  exists m e,
    F64.div (F64.of_Z (Zpos pn)) (F64.of_Z (Zpos pb)) = S754_finite false m e
    /\ Z.shiftl (Zpos m) e = Zpos pn / Zpos pb.
Proof.
  intros Hn Hb.
  destruct (of_Z_pos pn Hn) as (m1 & -> & Hm1 & Hd1).
  destruct (of_Z_pos pb Hb) as (m2 & -> & Hm2 & Hd2).
  pose proof (digits2_bounds pn) as [Hnlo Hnhi].
  pose proof (digits2_bounds pb) as [Hblo Hbhi].
  set (dn := Zpos (digits2_pos pn)) in *.
  set (db := Zpos (digits2_pos pb)) in *.
  assert (Hdn : 1 <= dn <= 53).
  { split; [subst dn; lia|].
    destruct (Z_le_gt_dec dn 53) as [H|H]; [exact H|].
    assert (2 ^ 53 <= 2 ^ (dn - 1)) by (apply Z.pow_le_mono_r; lia). lia. }
  assert (Hdb : 1 <= db <= 53).
  { split; [subst db; lia|].
    destruct (Z_le_gt_dec db 53) as [H|H]; [exact H|].
    assert (2 ^ 53 <= 2 ^ (db - 1)) by (apply Z.pow_le_mono_r; lia). lia. }
  pose proof (digits2_bounds m1) as Hb1. rewrite Hd1 in Hb1.
  pose proof (digits2_bounds m2) as Hb2. rewrite Hd2 in Hb2.
  change (53 - 1) with 52 in *.
  unfold F64.div. cbn [SFdiv]. rewrite div_core_normal by (assumption || lia).
  cbn [xorb].
  set (E := 53 + db - dn).
  replace (dn - 53 - (db - 53) - 53) with (- E) by (subst E; lia).
  assert (HE : db <= E <= 105) by (subst E; lia).
  assert (Hc : 0 < 2 ^ (53 - db)) by (apply Z.pow_pos_nonneg; lia).
  assert (Hq : Zpos m1 * 2 ^ 53 / Zpos m2 = (Zpos pn * 2 ^ E) / Zpos pb).
  { rewrite Hm1, Hm2.
    replace (Zpos pn * 2 ^ (53 - dn) * 2 ^ 53)
      with ((Zpos pn * 2 ^ E) * 2 ^ (53 - db)).
    - rewrite Z.div_mul_cancel_r by lia. reflexivity.
    - rewrite <- !Z.mul_assoc. f_equal. rewrite <- !Z.pow_add_r by lia.
      f_equal. subst E. lia. }
  set (q := Zpos m1 * 2 ^ 53 / Zpos m2) in *.
  assert (Hqr : 2 ^ 52 <= q < 2 ^ 54).
  { subst q. split.
    - apply Z.div_le_lower_bound; [lia|].
      change (2 ^ 53) with (2 * 2 ^ 52) in *. nia.
    - apply Z.div_lt_upper_bound; [lia|].
      change (2 ^ 54) with (4 * 2 ^ 52) in *.
      change (2 ^ 53) with (2 * 2 ^ 52) in *. nia. }
  destruct q as [|qp|qp] eqn:Eq; try lia.
  destruct (@round_aux_quotient qp (- E)
              (new_location (Zpos m2) ((Zpos m1 * 2 ^ 53) mod Zpos m2)) Hqr)
    as (m & e & -> & He & HV); [lia|].
  exists m, e. split; [reflexivity|].
  replace (e - - E) with (e + E) in HV by lia.
  assert (HbE : Zpos pb < 2 ^ E).
  { assert (2 ^ db <= 2 ^ E) by (apply Z.pow_le_mono_r; lia). lia. }
  rewrite (@shiftl_scaled (Zpos m) e E (Zpos m * 2 ^ (e + E)))
    by (reflexivity || lia).
  destruct HV as [-> | [-> | (-> & Hodd & Hbig)]].
  - rewrite Hq. apply quotient_div; lia.
  - rewrite Hq. apply quotient_succ_not_multiple; lia.
  - rewrite pred_odd_div by (assumption || lia).
    rewrite Hq. apply quotient_div; lia.
Qed.

End Quotient.

Set Implicit Arguments.

(* ================================================================== *)
(** * Further properties of the scoring metric *)

Section SpecialScores.

Lemma new_location_zero (nb_steps : Z) : new_location nb_steps 0 = loc_Exact.
Proof.
  unfold new_location, new_location_even, new_location_odd.
  now destruct (Z.even nb_steps).
Qed.

(** A size below [2^53] divided by itself is exactly 1.0. *)
Lemma div_self (p : positive) :
  (Zpos p < 2 ^ 53)%Z ->
  F64.div (F64.of_Z (Zpos p)) (F64.of_Z (Zpos p))
  = S754_finite false 4503599627370496 (-52).
Proof.
  intros Hp. destruct (of_Z_pos p Hp) as (m & -> & Hm & Hd).
  pose proof (digits2_bounds p) as [Hlo Hhi].
  set (d := Zpos (digits2_pos p)) in *.
  assert (Hdr : (1 <= d <= 53)%Z).
  { split; [subst d; lia|].
    destruct (Z_le_gt_dec d 53) as [H|H]; [exact H|].
    assert (2 ^ 53 <= 2 ^ (d - 1))%Z by (apply Z.pow_le_mono_r; lia). lia. }
  unfold F64.div. cbn [SFdiv].
  rewrite div_core_normal by (assumption || lia).
  rewrite Z.mul_comm, Z.div_mul, Z.mod_mul by lia.
  rewrite new_location_zero.
  replace (d - 53 - (d - 53) - 53)%Z with (-53)%Z by lia.
  reflexivity.
Qed.

(** Zero divided by a size below [2^53] is +0.0. *)
Lemma div_zero_by_size (p : positive) :
  (Zpos p < 2 ^ 53)%Z ->
  F64.div (F64.of_Z 0) (F64.of_Z (Zpos p)) = S754_zero false.
Proof.
  intros Hp. destruct (of_Z_pos p Hp) as (m & -> & _). reflexivity.
Qed.

Lemma np_and_diag (a : list Z) : np_and a a = a.
Proof.
  induction a as [|x a IH]; simpl; [reflexivity|].
  now rewrite Z.land_diag, IH.
Qed.

Lemma pad_zeros_full (v : list Z) : pad_zeros (length v) v = v.
Proof.
  unfold pad_zeros. rewrite Nat.sub_diag. apply app_nil_r.
Qed.

Lemma pad_zeros_exact (n : nat) (v : list Z) : length v = n -> pad_zeros n v = v.
Proof.
  intros <-. apply pad_zeros_full.
Qed.

Lemma sum_array_int64_nonempty (a : list Z) (z : Z) :
  sum_array a = NpInt64 z -> a <> [].
Proof.
  intros H ->. discriminate H.
Qed.

(** X1.  A prediction compared with a single annotator who selected exactly the
    same entries scores exactly 100.0, under any policy, as soon as something
    is selected (the sum of the entries is positive and below [2^53]). *)
Theorem evaluate_summary_perfect_match
    (predicted_summary : list Z) (eval_method : string) (s : Z) :
  sum_array predicted_summary = NpInt64 s ->
  (0 < s < 2 ^ 53)%Z ->
  evaluate_summary predicted_summary
    (mk_ndarray2 (length predicted_summary) [predicted_summary]) eval_method
  = Ok (NpFloat64 (S754_finite false 7036874417766400 (-46)))
  /\ S754_finite false 7036874417766400 (-46) = F64.of_Z 100.
Proof.
  intros Hs Hr. split; [|reflexivity].
  assert (Hne : predicted_summary <> []) by (eapply sum_array_int64_nonempty; eauto).
  assert (Hws : well_shaped
                  (mk_ndarray2 (length predicted_summary) [predicted_summary]) = true).
  { unfold well_shaped. simpl. now rewrite Nat.eqb_refl. }
  unfold evaluate_summary. rewrite (@f_scores_of_padded _ _ Hws).
  cbn [shape1 rows map_result]. rewrite Nat.max_id, pad_zeros_full.
  rewrite (user_fscore_nonempty Hne Hne).
  unfold precision64, recall64. rewrite np_and_diag, Hs. cbn [to_f64].
  destruct s as [|p|p]; try lia.
  rewrite div_self by lia.
  destruct (String.eqb eval_method "max"); reflexivity.
Qed.

Lemma evaluate_summary_perfect_match_witness :
  sum_array [0; 1; 1; 0; 1]%Z = NpInt64 3
  /\ (0 < 3 < 2 ^ 53)%Z
  /\ evaluate_summary [0; 1; 1; 0; 1]%Z
       (mk_ndarray2 5 [[0; 1; 1; 0; 1]%Z]) "avg"
     = Ok (NpFloat64 (S754_finite false 7036874417766400 (-46))).
Proof.
  assert (H1 : sum_array [0; 1; 1; 0; 1]%Z = NpInt64 3) by reflexivity.
  assert (H2 : (0 < 3 < 2 ^ 53)%Z) by (split; reflexivity).
  split; [exact H1|]. split; [exact H2|].
  exact (proj1 (@evaluate_summary_perfect_match [0; 1; 1; 0; 1]%Z "avg" 3 H1 H2)).
Defined.

Lemma py_max_all_zero (fs : list value) :
  fs <> [] -> Forall (eq (PyInt 0)) fs -> py_max fs = Ok (PyInt 0).
Proof.
  destruct fs as [|x fs]; [congruence|]. intros _ H.
  inversion H as [|? ? Hx Hfs]; subst. clear H. simpl. f_equal.
  induction Hfs as [|y fs Hy _ IH]; simpl; [reflexivity|].
  subst y. exact IH.
Qed.

Lemma py_sum_all_zero (fs : list value) :
  Forall (eq (PyInt 0)) fs -> py_sum fs = PyInt 0.
Proof.
  unfold py_sum. induction 1 as [|y fs Hy _ IH]; simpl; [reflexivity|].
  subst y. exact IH.
Qed.

(** X2.  When the prediction and the annotators have the same number of frames
    and no annotator selects a frame the prediction selects (every overlap
    sums to zero, while the prediction and every annotator select something),
    every annotator scores 0: ['max'] returns the integer 0, any other policy
    the float 0.0. *)
Theorem evaluate_summary_disjoint
    (predicted_summary : list Z) (user_summary : ndarray2) (s : Z) :
  well_shaped user_summary = true ->
  length predicted_summary = shape1 user_summary ->
  rows user_summary <> [] ->
  (Z.of_nat (length (rows user_summary)) < 2 ^ 53)%Z ->
  sum_array predicted_summary = NpInt64 s ->
  (0 < s < 2 ^ 53)%Z ->
  Forall (fun row =>
            sum_array (np_and predicted_summary row) = NpInt64 0
            /\ exists g, sum_array row = NpInt64 g /\ (0 < g < 2 ^ 53)%Z)
         (rows user_summary) ->
  evaluate_summary predicted_summary user_summary "max" = Ok (PyInt 0)
  /\ (forall eval_method,
         eval_method <> "max"%string ->
         evaluate_summary predicted_summary user_summary eval_method
         = Ok (PyFloat (S754_zero false))).
Proof.
  intros Hws Hlen Hrows Hn Hs Hsr Hall.
  assert (Hne : predicted_summary <> [])
    by (eapply sum_array_int64_nonempty; eauto).
  assert (Hfs : exists fs,
             f_scores_of predicted_summary user_summary = Ok fs
             /\ Forall (eq (PyInt 0)) fs
             /\ length fs = length (rows user_summary)).
  { rewrite (@f_scores_of_padded _ _ Hws). rewrite Hlen, Nat.max_id.
    rewrite (@pad_zeros_exact _ predicted_summary Hlen).
    apply map_result_Forall.
    pose proof (@well_shaped_rows user_summary Hws) as Hshape.
    rewrite Forall_forall in *. intros row Hrow.
    destruct (Hall row Hrow) as (Ho & g & Hg & Hgr).
    rewrite (@pad_zeros_exact _ row (Hshape row Hrow)).
    assert (Hrne : row <> []) by (eapply sum_array_int64_nonempty; eauto).
    rewrite (user_fscore_nonempty Hne Hrne). eexists. split; [reflexivity|].
    unfold precision64, recall64. rewrite Ho, Hs, Hg. cbn [to_f64].
    destruct s as [|ps|ps]; try lia. destruct g as [|pg|pg]; try lia.
    rewrite !div_zero_by_size by lia. reflexivity. }
  destruct Hfs as (fs & Hfs & Hzero & Hlenfs).
  assert (Hfne : fs <> []).
  { intros ->. destruct (rows user_summary); [congruence|discriminate]. }
  unfold evaluate_summary. rewrite Hfs. cbn [rbind]. split.
  - cbn [String.eqb Ascii.eqb Bool.eqb andb]. now apply py_max_all_zero.
  - intros m Hm. apply String.eqb_neq in Hm. rewrite Hm.
    rewrite (@py_sum_all_zero fs Hzero), Hlenfs.
    unfold py_truediv. cbn [is_numpy orb negb andb is_zero float_result to_f64].
    destruct (Z.of_nat (length (rows user_summary))) as [|pn|pn] eqn:En.
    + destruct (rows user_summary); [congruence|discriminate].
    + cbn [Z.eqb]. now rewrite div_zero_by_size.
    + lia.
Qed.

Lemma evaluate_summary_disjoint_witness :
  well_shaped (mk_ndarray2 4 [[0; 1; 1; 0]%Z; [0; 0; 1; 0]%Z]) = true
  /\ evaluate_summary [1; 0; 0; 1]%Z
       (mk_ndarray2 4 [[0; 1; 1; 0]%Z; [0; 0; 1; 0]%Z]) "max" = Ok (PyInt 0)
  /\ evaluate_summary [1; 0; 0; 1]%Z
       (mk_ndarray2 4 [[0; 1; 1; 0]%Z; [0; 0; 1; 0]%Z]) "avg"
     = Ok (PyFloat (S754_zero false)).
Proof.
  assert (Hws : well_shaped (mk_ndarray2 4 [[0; 1; 1; 0]%Z; [0; 0; 1; 0]%Z]) = true)
    by reflexivity.
  assert (Hrows : rows (mk_ndarray2 4 [[0; 1; 1; 0]%Z; [0; 0; 1; 0]%Z]) <> [])
    by discriminate.
  assert (Hn : (Z.of_nat (length (rows (mk_ndarray2 4 [[0; 1; 1; 0]%Z; [0; 0; 1; 0]%Z])))
                < 2 ^ 53)%Z) by reflexivity.
  assert (Hs : sum_array [1; 0; 0; 1]%Z = NpInt64 2) by reflexivity.
  assert (Hsr : (0 < 2 < 2 ^ 53)%Z) by (split; reflexivity).
  assert (Hall : Forall (fun row =>
                           sum_array (np_and [1; 0; 0; 1]%Z row) = NpInt64 0
                           /\ exists g, sum_array row = NpInt64 g
                                        /\ (0 < g < 2 ^ 53)%Z)
                        (rows (mk_ndarray2 4 [[0; 1; 1; 0]%Z; [0; 0; 1; 0]%Z]))).
  { repeat constructor.
    - exists 2%Z. repeat split.
    - exists 1%Z. repeat split. }
  destruct (@evaluate_summary_disjoint [1; 0; 0; 1]%Z
              (mk_ndarray2 4 [[0; 1; 1; 0]%Z; [0; 0; 1; 0]%Z]) 2
              Hws eq_refl Hrows Hn Hs Hsr Hall) as [Hmax Havg].
  split; [exact Hws|]. split; [exact Hmax|].
  apply Havg. discriminate.
Defined.

(** With a zero denominator the recall is NaN or an infinity, and the score is
    NaN whatever the precision. *)
Lemma fscore64_zero_recall_denominator (p fo : spec_float) :
  fscore64 p (F64.div fo (S754_zero false)) = NpFloat64 S754_nan.
Proof.
  unfold fscore64. generalize (F64.mul (F64.of_Z 2) p). intros t.
  destruct fo as [[]|[]| |[] m e], p as [[]|[]| |[] mp ep],
           t as [[]|[]| |[] mt et]; reflexivity.
Qed.

Lemma py_add_nan_score (v : value) :
  is_score v -> py_add (NpFloat64 S754_nan) v = NpFloat64 S754_nan.
Proof.
  intros [->|[f ->]]; reflexivity.
Qed.

Lemma fold_add_from_nan (fs : list value) :
  Forall is_score fs ->
  fold_left py_add fs (NpFloat64 S754_nan) = NpFloat64 S754_nan.
Proof.
  induction 1 as [|v fs Hv _ IH]; [reflexivity|].
  cbn [fold_left]. now rewrite (@py_add_nan_score v Hv).
Qed.

Lemma add_nan_r (x : spec_float) : F64.add x S754_nan = S754_nan.
Proof. now destruct x. Qed.

(** The running total of the builtin sum over scores: a Python integer or a
    binary64. *)
Definition running_total (a : value) : Prop :=
  (exists z, a = PyInt z) \/ (exists f, a = NpFloat64 f).

Lemma fold_add_nan (fs : list value) :
  Forall is_score fs -> In (NpFloat64 S754_nan) fs ->
  forall acc, running_total acc ->
              fold_left py_add fs acc = NpFloat64 S754_nan.
Proof.
  induction 1 as [|v fs Hv Hfs IH]; intros Hin acc Hacc; [destruct Hin|].
  cbn [fold_left]. destruct Hin as [->|Hin].
  - replace (py_add acc (NpFloat64 S754_nan)) with (NpFloat64 S754_nan).
    + now apply fold_add_from_nan.
    + destruct Hacc as [[z ->]|[f ->]]; unfold py_add, float_result;
        cbn [is_numpy orb to_f64]; now rewrite add_nan_r.
  - apply IH; [exact Hin|].
    destruct Hacc as [[z ->]|[f ->]], Hv as [->|[g ->]];
      unfold running_total; simpl; eauto.
Qed.

(** The builtin sum of scores one of which is NaN is NaN. *)
Lemma py_sum_nan (fs : list value) :
  Forall is_score fs -> In (NpFloat64 S754_nan) fs ->
  py_sum fs = NpFloat64 S754_nan.
Proof.
  intros Hall Hin. unfold py_sum. apply fold_add_nan; auto.
  left. now exists 0%Z.
Qed.

(** X3.  An annotator row whose entries sum to zero gives that annotator the
    score NaN, not 0, whatever the prediction (vectors not empty); under any
    policy other than ['max'] the value returned is then NaN. *)
Theorem evaluate_summary_empty_annotator_nan
    (predicted_summary : list Z) (user_summary : ndarray2)
    (user : nat) (row : list Z) :
  well_shaped user_summary = true ->
  0 < Nat.max (length predicted_summary) (shape1 user_summary) ->
  nth_error (rows user_summary) user = Some row ->
  is_zero (sum_array row) = true ->
  (exists f_scores,
      f_scores_of predicted_summary user_summary = Ok f_scores
      /\ nth_error f_scores user = Some (NpFloat64 S754_nan))
  /\ (forall eval_method,
         eval_method <> "max"%string ->
         evaluate_summary predicted_summary user_summary eval_method
         = Ok (NpFloat64 S754_nan)).
Proof.
  intros Hws Hlen Hrow Hzero.
  destruct (@f_scores_of_total predicted_summary user_summary Hws Hlen)
    as (fs & Hfs & Hscores & Hn).
  assert (Hnth : nth_error fs user = Some (NpFloat64 S754_nan)).
  { pose proof Hfs as Hmap.
    rewrite (@f_scores_of_padded _ _ Hws) in Hmap.
    destruct (map_result_nth _ _ Hmap _ Hrow) as (y & Hy & Hnth).
    rewrite Hnth. f_equal.
    rewrite user_fscore_nonempty in Hy by (apply pad_zeros_nonempty; lia).
    injection Hy as <-. unfold recall64.
    pose proof (@well_shaped_rows user_summary Hws) as Hshape.
    rewrite Forall_forall in Hshape.
    rewrite (@sum_array_pad_zero _ row Hzero) by lia.
    apply fscore64_zero_recall_denominator. }
  split; [exists fs; auto|].
  intros m Hm. apply String.eqb_neq in Hm.
  unfold evaluate_summary. rewrite Hfs. cbn [rbind]. rewrite Hm.
  rewrite py_sum_nan; [now rewrite py_truediv_numpy|exact Hscores|].
  eapply nth_error_In; eauto.
Qed.

Lemma evaluate_summary_empty_annotator_nan_witness :
  well_shaped (mk_ndarray2 3 [[1; 0; 1]%Z; [0; 0; 0]%Z]) = true
  /\ is_zero (sum_array [0; 0; 0]%Z) = true
  /\ evaluate_summary [1; 1; 0]%Z (mk_ndarray2 3 [[1; 0; 1]%Z; [0; 0; 0]%Z]) "avg"
     = Ok (NpFloat64 S754_nan).
Proof.
  assert (Hws : well_shaped (mk_ndarray2 3 [[1; 0; 1]%Z; [0; 0; 0]%Z]) = true)
    by reflexivity.
  assert (Hz : is_zero (sum_array [0; 0; 0]%Z) = true) by reflexivity.
  assert (Hlen : 0 < Nat.max (length [1; 1; 0]%Z)
                             (shape1 (mk_ndarray2 3 [[1; 0; 1]%Z; [0; 0; 0]%Z])))
    by (simpl; lia).
  split; [exact Hws|]. split; [exact Hz|].
  refine (proj2 (@evaluate_summary_empty_annotator_nan
                   [1; 1; 0]%Z (mk_ndarray2 3 [[1; 0; 1]%Z; [0; 0; 0]%Z])
                   1 [0; 0; 0]%Z Hws Hlen eq_refl Hz) "avg"%string _).
  discriminate.
Defined.

Lemma user_loop_scores (S : list Z) (L : nat) (users : list (list Z)) :
  forall (G : list Z) (acc fs : list value),
    user_loop S G L users acc = Ok fs ->
    Forall is_score acc -> Forall is_score fs.
Proof.
  induction users as [|row rest IH]; intros G acc fs H Hacc; simpl in H.
  - now injection H as <-.
  - destruct (user_fscore S (assign_prefix G L row)) as [f|] eqn:Hf;
      [|discriminate].
    simpl in H. eapply IH; [exact H|].
    apply Forall_app. split; [exact Hacc|].
    constructor; [eapply user_fscore_score; eauto|constructor].
Qed.

Lemma f_scores_of_scores (predicted_summary : list Z) (user_summary : ndarray2)
    (fs : list value) :
  f_scores_of predicted_summary user_summary = Ok fs -> Forall is_score fs.
Proof.
  intros H. eapply user_loop_scores; [exact H|constructor].
Qed.

(** The maximum kept by [max] is NaN exactly when its first item is. *)
Lemma fold_max_nan_first (rest : list value) :
  forall x, Forall is_score (x :: rest) ->
            np_isnan (fold_left max_step rest x) = np_isnan x.
Proof.
  induction rest as [|a rest IH]; intros x Hall; [reflexivity|].
  inversion Hall as [|? ? Hx Hrest]; subst.
  inversion Hrest as [|? ? Ha Hrest']; subst.
  cbn [fold_left].
  assert (Hstep : is_score (max_step x a) /\ np_isnan (max_step x a) = np_isnan x).
  { unfold max_step. destruct (py_gt a x) eqn:Hgt; [|auto].
    split; [exact Ha|].
    rewrite py_gt_score in Hgt by assumption.
    destruct Hx as [->|[fx ->]], Ha as [->|[fa ->]]; try reflexivity;
      try discriminate Hgt.
    - simpl. now destruct fa as [[]|[]| |[]].
    - simpl. now destruct fx as [[]|[]| |[]].
    - simpl in *. destruct fx as [[]|[]| |[]], fa as [[]|[]| |[]];
        try reflexivity; discriminate Hgt. }
  destruct Hstep as [Hs Hn]. rewrite IH by now constructor. exact Hn.
Qed.

(** X4.  Under ['max'] the value returned is NaN exactly when the score of the
    first annotator is NaN: a NaN score in first position hides every other
    score, a NaN score elsewhere is ignored. *)
Theorem evaluate_summary_max_nan_first
    (predicted_summary : list Z) (user_summary : ndarray2)
    (first : value) (others : list value) :
  f_scores_of predicted_summary user_summary = Ok (first :: others) ->
  exists v,
    evaluate_summary predicted_summary user_summary "max" = Ok v
    /\ np_isnan v = np_isnan first.
Proof.
  intros Hfs. pose proof (f_scores_of_scores _ _ Hfs) as Hall.
  unfold evaluate_summary. rewrite Hfs. cbn [rbind String.eqb Ascii.eqb Bool.eqb andb].
  eexists. split; [reflexivity|].
  now apply fold_max_nan_first.
Qed.

Lemma evaluate_summary_max_nan_first_witness :
  f_scores_of [1; 0]%Z (mk_ndarray2 2 [[0; 0]%Z; [1; 0]%Z])
  = Ok [NpFloat64 S754_nan; NpFloat64 (S754_finite false 7036874417766400 (-46))]
  /\ exists v,
       evaluate_summary [1; 0]%Z (mk_ndarray2 2 [[0; 0]%Z; [1; 0]%Z]) "max" = Ok v
       /\ np_isnan v = true.
Proof.
  assert (H : f_scores_of [1; 0]%Z (mk_ndarray2 2 [[0; 0]%Z; [1; 0]%Z])
              = Ok [NpFloat64 S754_nan;
                    NpFloat64 (S754_finite false 7036874417766400 (-46))])
    by reflexivity.
  split; [exact H|].
  exact (@evaluate_summary_max_nan_first _ _ _ _ H).
Defined.

(** X5.  Under ['max'] the value returned is the score of one of the
    annotators, and no annotator's score is greater when none of the scores is
    NaN. *)
Theorem evaluate_summary_max_is_best
    (predicted_summary : list Z) (user_summary : ndarray2) (f_scores : list value) :
  f_scores_of predicted_summary user_summary = Ok f_scores ->
  f_scores <> [] ->
  exists v,
    evaluate_summary predicted_summary user_summary "max" = Ok v
    /\ In v f_scores
    /\ (Forall (fun f => np_isnan f = false) f_scores ->
        Forall (fun f => py_gt f v = false) f_scores).
Proof.
  intros Hfs Hne. pose proof (f_scores_of_scores _ _ Hfs) as Hall.
  unfold evaluate_summary. rewrite Hfs. cbn [rbind String.eqb Ascii.eqb Bool.eqb andb].
  destruct f_scores as [|x rest]; [congruence|].
  eexists. split; [reflexivity|]. fold max_step.
  split; [apply fold_max_in|].
  intros Hnan. apply Forall_forall. intros y Hy.
  apply fold_max_upper; [|exact Hy].
  rewrite Forall_forall in *. auto.
Qed.

Lemma evaluate_summary_max_is_best_witness :
  f_scores_of [1; 1; 0; 0]%Z (mk_ndarray2 4 [[1; 0; 0; 0]%Z; [1; 1; 0; 0]%Z])
  = Ok [NpFloat64 (S754_finite false 4691249611844267 (-46));
        NpFloat64 (S754_finite false 7036874417766400 (-46))]
  /\ exists v,
       evaluate_summary [1; 1; 0; 0]%Z
         (mk_ndarray2 4 [[1; 0; 0; 0]%Z; [1; 1; 0; 0]%Z]) "max" = Ok v
       /\ In v [NpFloat64 (S754_finite false 4691249611844267 (-46));
                NpFloat64 (S754_finite false 7036874417766400 (-46))].
Proof.
  assert (H : f_scores_of [1; 1; 0; 0]%Z
                (mk_ndarray2 4 [[1; 0; 0; 0]%Z; [1; 1; 0; 0]%Z])
              = Ok [NpFloat64 (S754_finite false 4691249611844267 (-46));
                    NpFloat64 (S754_finite false 7036874417766400 (-46))])
    by reflexivity.
  split; [exact H|].
  destruct (@evaluate_summary_max_is_best _ _ _ H ltac:(discriminate))
    as (v & Hv & Hin & _).
  exists v. split; [exact Hv|exact Hin].
Defined.

(** X6.  Appending unselected frames to a prediction shorter than the
    annotations does not change the outcome: the buffer pads with zeros
    anyway. *)
Theorem evaluate_summary_trailing_zeros
    (predicted_summary : list Z) (user_summary : ndarray2) (k : nat)
    (eval_method : string) :
  well_shaped user_summary = true ->
  length predicted_summary + k <= shape1 user_summary ->
  evaluate_summary (predicted_summary ++ repeat 0%Z k) user_summary eval_method
  = evaluate_summary predicted_summary user_summary eval_method.
Proof.
  intros Hws Hlen. unfold evaluate_summary.
  rewrite !(@f_scores_of_padded _ _ Hws).
  rewrite length_app, repeat_length.
  rewrite !Nat.max_r by lia.
  replace (pad_zeros (shape1 user_summary) (predicted_summary ++ repeat 0%Z k))
    with (pad_zeros (shape1 user_summary) predicted_summary); [reflexivity|].
  unfold pad_zeros. rewrite length_app, repeat_length, <- app_assoc, <- repeat_app.
  do 2 f_equal. lia.
Qed.

Lemma evaluate_summary_trailing_zeros_witness :
  well_shaped (mk_ndarray2 4 [[1; 0; 1; 0]%Z]) = true
  /\ length [1; 1]%Z + 2 <= shape1 (mk_ndarray2 4 [[1; 0; 1; 0]%Z])
  /\ evaluate_summary ([1; 1]%Z ++ repeat 0%Z 2) (mk_ndarray2 4 [[1; 0; 1; 0]%Z]) "max"
     = evaluate_summary [1; 1]%Z (mk_ndarray2 4 [[1; 0; 1; 0]%Z]) "max".
Proof.
  assert (Hws : well_shaped (mk_ndarray2 4 [[1; 0; 1; 0]%Z]) = true) by reflexivity.
  assert (Hlen : length [1; 1]%Z + 2 <= shape1 (mk_ndarray2 4 [[1; 0; 1; 0]%Z]))
    by (simpl; lia).
  split; [exact Hws|]. split; [exact Hlen|].
  exact (@evaluate_summary_trailing_zeros [1; 1]%Z _ 2 "max" Hws Hlen).
Defined.

End SpecialScores.

(* ================================================================== *)
(** * Lists *)

Lemma map_result_app {A B} (f : A -> result B) (xs1 xs2 : list A) (ys : list B) :
  map_result f (xs1 ++ xs2) = Ok ys ->
  exists ys1 ys2,
    map_result f xs1 = Ok ys1 /\ map_result f xs2 = Ok ys2 /\ ys = ys1 ++ ys2.
Proof.
  revert ys. induction xs1 as [|x xs1 IH]; intros ys H; simpl in *.
  - exists [], ys. auto.
  - destruct (f x) as [y|]; [|discriminate].
    destruct (map_result f (xs1 ++ xs2)) as [ys0|] eqn:E; [|discriminate].
    injection H as <-. destruct (IH _ eq_refl) as (ys1 & ys2 & -> & -> & ->).
    exists (y :: ys1), ys2. auto.
Qed.

Lemma firstn_add_skipn {A} (a c : nat) (l : list A) :
  firstn (a + c) l = firstn a l ++ firstn c (skipn a l).
Proof.
  revert l. induction a as [|a IH]; intros l; simpl; [reflexivity|].
  destruct l as [|x l]; simpl.
  - now rewrite firstn_nil.
  - now rewrite IH.
Qed.

Lemma skipn_add_skipn {A} (a c : nat) (l : list A) :
  skipn (a + c) l = skipn c (skipn a l).
Proof.
  revert l. induction a as [|a IH]; intros l; simpl; [reflexivity|].
  destruct l as [|x l]; simpl; [now rewrite skipn_nil|apply IH].
Qed.

(* ================================================================== *)
(** * The training loop and the evaluation pass *)

(** Outcome of one iteration of the loop over epochs. *)
Inductive loop_control (A : Type) : Type :=
| Break
| Continue (a : A).

Arguments Break {A}.
Arguments Continue {A} a.

(** [int(n / b)] on two sizes: the binary64 quotient, truncated; [range] then
    takes it as a count. *)
Definition num_batches_of (n b : nat) : result nat :=
  rbind (py_truediv (PyInt (Z.of_nat n)) (PyInt (Z.of_nat b)))
        (fun quotient => rbind (py_int quotient) (fun z => Ok (Z.to_nat z))).

(** Below [2^53] the float quotient, truncated, is the integer quotient. *)
Lemma num_batches_floor (n b : nat) :
  0 < b ->
  (Z.of_nat n < 2 ^ 53)%Z -> (Z.of_nat b < 2 ^ 53)%Z ->
  num_batches_of n b = Ok (n / b).
Proof.
  intros Hb Hn Hbb. unfold num_batches_of, py_truediv.
  cbn [is_numpy orb negb andb is_zero float_result to_f64].
  destruct (Z.eqb_spec (Z.of_nat b) 0) as [E|_]; [lia|]. cbn [rbind].
  destruct (Z.of_nat b) as [|pb|pb] eqn:Eb; try lia.
  destruct (Z.of_nat n) as [|pn|pn] eqn:En; try lia.
  - assert (n = 0) by lia. subst n.
    destruct (@of_Z_pos pb Hbb) as (m & -> & _).
    change (F64.of_Z 0) with (S754_zero false).
    cbn [F64.div SFdiv xorb py_int rbind Z.to_nat].
    now rewrite Nat.Div0.div_0_l.
  - destruct (@div_of_Z_trunc pn pb Hn Hbb) as (m & e & -> & Ht).
    cbn [py_int rbind cond_Zopp]. rewrite Ht. f_equal.
    rewrite <- En, <- Eb, <- Nat2Z.inj_div. apply Nat2Z.id.
Qed.

Section Solver.

(** ** Collaborators *)

(** Scalars of the loss (the dtype of the network's output) with the
    arithmetic [train] performs on them. *)
Variable num : Type.
Variable num_of_int : Z -> num.
Variable num_sub num_div num_mul : num -> num -> num.
Variable num_geb : num -> num -> bool.

(** Items of [train_loader], and of [test_loader] and [train_infer_loader]. *)
Variable sample : Type.
Variable video : Type.

(** [self.config] *)
Record config : Type := mk_config {
  n_epochs : nat;
  batch_size : nat;
  clip : num;
  verbose : bool;
  save_dir : string
}.

Variable cfg : config.
Variable train_loader : list sample.
Variable test_loader train_infer_loader : list video.

(** What the network returns for the [k]-th video of epoch [epoch_i]:
    [model_summary], as [evaluate_summary] stores it in its integer buffer, and
    the loss.  The parameters the network has at that point are determined by
    the run so far, hence by [epoch_i] and [k]. *)
Variable forward : nat -> nat -> sample -> list Z * num.

(** [target.numpy()], as stored in the integer buffer. *)
Variable target_of : sample -> ndarray2.

(** [torch.stack(loss_history).mean()] on a non-empty history. *)
Variable stack_mean : list num -> num.

(** In [evaluate]: the summary rebuilt by [set_summary_from_video_index] from
    the scores the network gives at epoch [epoch_i], and the user summary read
    from the dataset store. *)
Variable summary_of : nat -> video -> list Z.
Variable user_summary_of : video -> ndarray2.

(** [np.mean] *)
Variable np_mean : list value -> value.

(** ** Calls made to the collaborators *)

(** Each call records the epoch during which it is made. *)
Inductive event : Type :=
| open_logfile
| model_train (epoch_i : nat)
| tqdm_write (epoch_i : nat) (msg : string)
| tqdm_write_loss (epoch_i : nat) (loss : num)
| zero_grad (epoch_i : nat)
| model_call (epoch_i : nat) (s : sample)
| loss_backward (epoch_i : nat) (s : sample)
| clip_grad_norm_ (epoch_i : nat) (max_norm : num)
| optimizer_step (epoch_i : nat)
| update_loss (epoch_i : nat) (tag : string) (x : num + value)
| makedirs_if_missing (epoch_i : nat) (dir : string)
| torch_save (epoch_i : nat) (path : string)
| model_eval (epoch_i : nat)
| h5py_File (epoch_i : nat)
| model_infer (epoch_i : nat) (item : video)
| logfile_write (epoch_i : nat) (current_loss diff : num) (f1_train f1_test : value)
| print (epoch_i : nat) (current_loss diff : num) (f1_train f1_test : value).

(** ** Computations: a log of calls and an outcome *)

Definition M (A : Type) : Type := list event -> list event * result A.

Definition ret {A} (a : A) : M A := fun log => (log, Ok a).

Definition bind {A B} (m : M A) (k : A -> M B) : M B :=
  fun log =>
    match m log with
    | (log', Ok a) => k a log'
    | (log', Raise e) => (log', Raise e)
    end.

Definition call (e : event) : M unit := fun log => (log ++ [e], Ok tt).

Definition lift {A} (r : result A) : M A := fun log => (log, r).

Definition when (b : bool) (m : M unit) : M unit := if b then m else ret tt.

Notation "x <- c ;;; k" := (bind c (fun x => k))
  (at level 61, c at next level, right associativity).
Notation "c ;;; k" := (bind c (fun _ => k))
  (at level 61, right associativity).

(** [for _ in range(n): v = body(v)] *)
Fixpoint for_range {A} (n : nat) (body : A -> M A) (v : A) : M A :=
  match n with
  | O => ret v
  | S n' => v' <- body v ;;; for_range n' body v'
  end.

(** ** [Solver.train] *)

(** The variables an epoch carries through its batches. *)
Record epoch_vars : Type := mk_epoch_vars {
  iterator : list sample;
  f1_score : list value;
  loss_history : list num
}.

(** Body of the loop over the videos of a batch. *)
Definition video_body (epoch_i : nat) (v : epoch_vars) : M epoch_vars :=
  match iterator v with
  | [] => lift (Raise StopIteration)
  | s :: iterator' =>
      let user_summary := target_of s in
      let '(model_summary, loss) := forward epoch_i (length (loss_history v)) s in
      call (model_call epoch_i s) ;;;
      f1 <- lift (evaluate_summary model_summary user_summary "max") ;;;
      let f1_score' :=
        if negb (np_isnan f1) then f1_score v ++ [f1] else f1_score v in
      when (verbose cfg) (call (tqdm_write_loss epoch_i loss)) ;;;
      call (loss_backward epoch_i s) ;;;
      ret (mk_epoch_vars iterator' f1_score' (loss_history v ++ [loss]))
  end.

(** Body of the loop over batches. *)
Definition batch_body (epoch_i : nat) (v : epoch_vars) : M epoch_vars :=
  when (verbose cfg) (call (tqdm_write epoch_i "Time to train the model...")) ;;;
  call (zero_grad epoch_i) ;;;
  v' <- for_range (batch_size cfg) (video_body epoch_i) v ;;;
  call (clip_grad_norm_ epoch_i (clip cfg)) ;;;
  call (optimizer_step epoch_i) ;;;
  ret v'.

(** The first part of an epoch: all its batches. *)
Definition train_batches (epoch_i : nat) : M epoch_vars :=
  call (model_train epoch_i) ;;;
  num_batches <- lift (num_batches_of (length train_loader) (batch_size cfg)) ;;;
  for_range num_batches (batch_body epoch_i)
            (mk_epoch_vars train_loader [] []).

(** Either loop of [evaluate], appending to [f1s]. *)
Fixpoint evaluate_loop (epoch_i : nat) (loader : list video) (f1s : list value)
    : M (list value) :=
  match loader with
  | [] => ret f1s
  | item :: rest =>
      call (model_infer epoch_i item) ;;;
      let user_summary := user_summary_of item in
      let summary := summary_of epoch_i item in
      f1_score <- lift (evaluate_summary summary user_summary "max") ;;;
      evaluate_loop epoch_i rest (f1s ++ [f1_score])
  end.

(** [Solver.evaluate(epoch_i)]: returns [(avg_f1_train, avg_f1_test)]. *)
Definition evaluate (epoch_i : nat) : M (value * value) :=
  call (model_eval epoch_i) ;;;
  call (h5py_File epoch_i) ;;;
  f1_test <- evaluate_loop epoch_i test_loader [] ;;;
  let avg_f1_test := np_mean f1_test in
  f1_train <- evaluate_loop epoch_i train_infer_loader [] ;;;
  let avg_f1_train := np_mean f1_train in
  ret (avg_f1_train, avg_f1_test).

Definition tol : Z := 7.

(** [(current_loss - last_loss) / current_loss * 100] *)
Definition loss_diff (current_loss last_loss : num) : num :=
  num_mul (num_div (num_sub current_loss last_loss) current_loss) (num_of_int 100).

Definition ckpt_path : string := save_dir cfg ++ "/last_epoch.pkl".

(** Body of the loop over epochs; [Continue] carries the new [last_loss]. *)
Definition epoch_body (epoch_i : nat) (last_loss : num) : M (loop_control num) :=
  v <- train_batches epoch_i ;;;
  loss <- lift (match loss_history v with
                | [] => Raise RuntimeError
                | _ => Ok (stack_mean (loss_history v))
                end) ;;;
  let current_loss := loss in
  let diff := loss_diff current_loss last_loss in
  let last_loss := current_loss in
  if num_geb diff (num_of_int tol) then ret Break
  else
    when (verbose cfg) (call (tqdm_write epoch_i "Plotting...")) ;;;
    call (update_loss epoch_i "loss_epoch" (inl loss)) ;;;
    call (makedirs_if_missing epoch_i (save_dir cfg)) ;;;
    call (tqdm_write epoch_i ("Save parameters at " ++ ckpt_path)) ;;;
    call (torch_save epoch_i ckpt_path) ;;;
    f1s <- evaluate epoch_i ;;;
    let '(f1_train, f1_test) := f1s in
    call (update_loss epoch_i "f1_train" (inr f1_train)) ;;;
    call (update_loss epoch_i "f1_test" (inr f1_test)) ;;;
    call (logfile_write epoch_i current_loss diff f1_train f1_test) ;;;
    call (print epoch_i current_loss diff f1_train f1_test) ;;;
    ret (Continue last_loss).

(** [for epoch_i in trange(n_epochs)], with its [break]. *)
Fixpoint epoch_loop (epochs : list nat) (last_loss : num) : M unit :=
  match epochs with
  | [] => ret tt
  | epoch_i :: rest =>
      c <- epoch_body epoch_i last_loss ;;;
      match c with
      | Break => ret tt
      | Continue last_loss' => epoch_loop rest last_loss'
      end
  end.

Definition train : M unit :=
  let last_loss := num_of_int 100000 in
  call open_logfile ;;;
  epoch_loop (seq 0 (n_epochs cfg)) last_loss.

(** ** The run of an epoch, spelt out *)

(** The videos of a list with their position in the epoch, counted from [k]. *)
Fixpoint indexed (k : nat) (ss : list sample) : list (nat * sample) :=
  match ss with
  | [] => []
  | s :: rest => (k, s) :: indexed (S k) rest
  end.

(** F1 of the [k]-th video of the epoch, as [train] computes it. *)
Definition train_f1 (epoch_i : nat) (ks : nat * sample) : result value :=
  evaluate_summary (fst (forward epoch_i (fst ks) (snd ks)))
                   (target_of (snd ks)) "max".

Definition train_loss (epoch_i : nat) (ks : nat * sample) : num :=
  snd (forward epoch_i (fst ks) (snd ks)).

Definition video_trace (epoch_i : nat) (ks : nat * sample) : list event :=
  [model_call epoch_i (snd ks)]
  ++ (if verbose cfg then [tqdm_write_loss epoch_i (train_loss epoch_i ks)] else [])
  ++ [loss_backward epoch_i (snd ks)].

Definition batch_trace (epoch_i : nat) (k : nat) (batch : list sample) : list event :=
  (if verbose cfg then [tqdm_write epoch_i "Time to train the model..."] else [])
  ++ [zero_grad epoch_i]
  ++ flat_map (video_trace epoch_i) (indexed k batch)
  ++ [clip_grad_norm_ epoch_i (clip cfg); optimizer_step epoch_i].

Fixpoint batches_trace (epoch_i : nat) (k : nat) (batches : list (list sample))
    : list event :=
  match batches with
  | [] => []
  | batch :: rest =>
      batch_trace epoch_i k batch ++ batches_trace epoch_i (k + length batch) rest
  end.

(** The first [nb] consecutive groups of [b] items of a list. *)
Fixpoint chunks (b nb : nat) (l : list sample) : list (list sample) :=
  match nb with
  | O => []
  | S nb' => firstn b l :: chunks b nb' (skipn b l)
  end.

Definition keep_f1 (f1 : value) : bool := negb (np_isnan f1).

(** The sizes [train] divides convert exactly to binary64. *)
Definition sizes_below_2_53 : Prop :=
  (Z.of_nat (length train_loader) < 2 ^ 53)%Z
  /\ (Z.of_nat (batch_size cfg) < 2 ^ 53)%Z.

(** ** Running the loops *)

Lemma indexed_app (k : nat) (l1 l2 : list sample) :
  indexed k (l1 ++ l2) = indexed k l1 ++ indexed (k + length l1) l2.
Proof.
  revert k. induction l1 as [|s l1 IH]; intros k; simpl.
  - now rewrite Nat.add_0_r.
  - rewrite IH. do 3 f_equal. lia.
Qed.

Lemma indexed_length (k : nat) (l : list sample) :
  length (indexed k l) = length l.
Proof.
  revert k. induction l as [|s l IH]; intros k; simpl; auto.
Qed.

Lemma indexed_snd (k : nat) (l : list sample) :
  map snd (indexed k l) = l.
Proof.
  revert k. induction l as [|s l IH]; intros k; simpl; [reflexivity|].
  now rewrite IH.
Qed.

Lemma video_body_run (epoch_i : nat) (s : sample) (rest : list sample)
    (v : epoch_vars) (log : list event) (f1 : value) :
  iterator v = s :: rest ->
  train_f1 epoch_i (length (loss_history v), s) = Ok f1 ->
  video_body epoch_i v log =
  (log ++ video_trace epoch_i (length (loss_history v), s),
   Ok (mk_epoch_vars rest
         (f1_score v ++ filter keep_f1 [f1])
         (loss_history v ++ [train_loss epoch_i (length (loss_history v), s)]))).
Proof.
  intros Hit Hf1. unfold video_body, video_trace, train_f1, train_loss in *.
  rewrite Hit. simpl fst in *. simpl snd in *.
  destruct (forward epoch_i (length (loss_history v)) s) as [ms loss].
  simpl fst in *. simpl snd in *.
  unfold bind, call, lift, when, ret. rewrite Hf1.
  unfold keep_f1. simpl filter.
  destruct (verbose cfg), (negb (np_isnan f1));
    simpl; rewrite <- ?app_assoc, ?app_nil_r; reflexivity.
Qed.

(** The loop over the videos of a batch: it consumes the batch from the
    iterator, calls the network and backpropagates once per video, and keeps
    the F1 values that are not NaN. *)
Lemma video_loop_run (epoch_i : nat) (batch : list sample) :
  forall (rest : list sample) (v : epoch_vars) (log : list event) (f1s : list value),
    iterator v = batch ++ rest ->
    map_result (train_f1 epoch_i) (indexed (length (loss_history v)) batch) = Ok f1s ->
    for_range (length batch) (video_body epoch_i) v log =
    (log ++ flat_map (video_trace epoch_i) (indexed (length (loss_history v)) batch),
     Ok (mk_epoch_vars rest
           (f1_score v ++ filter keep_f1 f1s)
           (loss_history v
            ++ map (train_loss epoch_i) (indexed (length (loss_history v)) batch)))).
Proof.
  induction batch as [|s batch IH]; intros rest v log f1s Hit Hf1.
  - simpl in *. injection Hf1 as <-. simpl. rewrite !app_nil_r.
    destruct v; simpl in *; now subst.
  - simpl in Hf1.
    destruct (train_f1 epoch_i (length (loss_history v), s)) as [f1|] eqn:H1;
      [|discriminate].
    destruct (map_result _ _) as [f1s'|] eqn:H2; [|discriminate].
    injection Hf1 as <-.
    simpl for_range. unfold bind at 1.
    rewrite (@video_body_run epoch_i s (batch ++ rest) v log f1 Hit H1).
    set (v1 := mk_epoch_vars _ _ _).
    assert (Hlen : length (loss_history v1) = S (length (loss_history v))).
    { subst v1. simpl. rewrite length_app. simpl. lia. }
    rewrite (IH rest v1 _ f1s' eq_refl) by now rewrite Hlen.
    rewrite Hlen. subst v1. simpl.
    rewrite <- !app_assoc. simpl. 
    destruct (keep_f1 f1); simpl; rewrite <- ?app_assoc; reflexivity.
Qed.

(** One batch: gradients are zeroed, the videos of the batch are processed,
    the gradient norm is clipped and the optimizer steps. *)
Lemma batch_body_run (epoch_i : nat) (batch rest : list sample)
    (v : epoch_vars) (log : list event) (f1s : list value) :
  length batch = batch_size cfg ->
  iterator v = batch ++ rest ->
  map_result (train_f1 epoch_i) (indexed (length (loss_history v)) batch) = Ok f1s ->
  batch_body epoch_i v log =
  (log ++ batch_trace epoch_i (length (loss_history v)) batch,
   Ok (mk_epoch_vars rest
         (f1_score v ++ filter keep_f1 f1s)
         (loss_history v
          ++ map (train_loss epoch_i) (indexed (length (loss_history v)) batch)))).
Proof.
  intros Hlen Hit Hf1. unfold batch_body, batch_trace.
  unfold bind at 1 2. unfold when, call at 1 2, ret at 1.
  rewrite <- Hlen.
  assert (Hlog : forall l,
             for_range (length batch) (video_body epoch_i) v l = _)
    by (intros l; exact (@video_loop_run epoch_i batch rest v l f1s Hit Hf1)).
  destruct (verbose cfg); unfold bind; rewrite Hlog; unfold call, ret; simpl;
    rewrite <- !app_assoc; reflexivity.
Qed.

Lemma chunks_length (b nb : nat) (l : list sample) :
  length (chunks b nb l) = nb.
Proof.
  revert l. induction nb as [|nb IH]; intros l; simpl; auto.
Qed.

Lemma chunks_concat (b nb : nat) (l : list sample) :
  concat (chunks b nb l) = firstn (nb * b) l.
Proof.
  revert l. induction nb as [|nb IH]; intros l; simpl; [reflexivity|].
  now rewrite IH, firstn_add_skipn.
Qed.

Lemma chunks_full (b nb : nat) (l : list sample) :
  nb * b <= length l -> Forall (fun batch => length batch = b) (chunks b nb l).
Proof.
  revert l. induction nb as [|nb IH]; intros l Hl; simpl in *; constructor.
  - apply firstn_length_le. lia.
  - apply IH. rewrite length_skipn. lia.
Qed.

(** The loop over batches, on an iterator holding at least [nb] batches. *)
Lemma batches_run (epoch_i : nat) (nb : nat) :
  forall (v : epoch_vars) (log : list event) (f1s : list value),
    nb * batch_size cfg <= length (iterator v) ->
    map_result (train_f1 epoch_i)
      (indexed (length (loss_history v))
               (firstn (nb * batch_size cfg) (iterator v))) = Ok f1s ->
    for_range nb (batch_body epoch_i) v log =
    (log ++ batches_trace epoch_i (length (loss_history v))
                          (chunks (batch_size cfg) nb (iterator v)),
     Ok (mk_epoch_vars
           (skipn (nb * batch_size cfg) (iterator v))
           (f1_score v ++ filter keep_f1 f1s)
           (loss_history v
            ++ map (train_loss epoch_i)
                 (indexed (length (loss_history v))
                          (firstn (nb * batch_size cfg) (iterator v)))))).
Proof.
  set (b := batch_size cfg).
  induction nb as [|nb IH]; intros v log f1s Hlen Hf1.
  - simpl in *. injection Hf1 as <-. simpl. rewrite !app_nil_r.
    now destruct v.
  - simpl Nat.mul in *. rewrite firstn_add_skipn, indexed_app in Hf1.
    apply map_result_app in Hf1. destruct Hf1 as (f1 & f2 & H1 & H2 & ->).
    assert (Hb : length (firstn b (iterator v)) = b)
      by (apply firstn_length_le; lia).
    rewrite Hb in H2.
    simpl for_range. unfold bind.
    rewrite (@batch_body_run epoch_i (firstn b (iterator v)) (skipn b (iterator v))
               v log f1 Hb (eq_sym (firstn_skipn b (iterator v))) H1).
    set (v1 := mk_epoch_vars _ _ _).
    assert (Hk : length (loss_history v1) = length (loss_history v) + b).
    { subst v1. simpl. now rewrite length_app, length_map, indexed_length, Hb. }
    assert (Hit1 : iterator v1 = skipn b (iterator v)) by reflexivity.
    rewrite (IH v1 _ f2).
    + rewrite Hk, Hit1. subst v1. simpl.
      rewrite Hb, firstn_add_skipn, skipn_add_skipn, indexed_app, Hb.
      rewrite filter_app, map_app, <- !app_assoc. reflexivity.
    + rewrite Hit1, length_skipn. lia.
    + now rewrite Hk, Hit1.
Qed.

(** All the batches of an epoch. *)
Lemma train_batches_run (epoch_i : nat) (log : list event) (f1s : list value) :
  0 < batch_size cfg ->
  sizes_below_2_53 ->
  let nb := length train_loader / batch_size cfg in
  let used := firstn (nb * batch_size cfg) train_loader in
  map_result (train_f1 epoch_i) (indexed 0 used) = Ok f1s ->
  train_batches epoch_i log =
  (log ++ model_train epoch_i
       :: batches_trace epoch_i 0 (chunks (batch_size cfg) nb train_loader),
   Ok (mk_epoch_vars (skipn (nb * batch_size cfg) train_loader)
         (filter keep_f1 f1s)
         (map (train_loss epoch_i) (indexed 0 used)))).
Proof.
  intros Hb [Hn Hbb] nb used Hf1. unfold train_batches.
  rewrite (@num_batches_floor (length train_loader) (batch_size cfg) Hb Hn Hbb).
  unfold bind, call, lift. fold nb.
  rewrite (@batches_run epoch_i nb (mk_epoch_vars train_loader [] []) _ f1s).
  - simpl. rewrite <- app_assoc. reflexivity.
  - simpl. subst nb. rewrite Nat.mul_comm. apply Nat.Div0.mul_div_le.
  - exact Hf1.
Qed.

(** ** Counting calls *)

Definition is_zero_grad (ev : event) : bool :=
  match ev with zero_grad _ => true | _ => false end.

Definition is_clip_grad_norm (ev : event) : bool :=
  match ev with clip_grad_norm_ _ _ => true | _ => false end.

Definition is_optimizer_step (ev : event) : bool :=
  match ev with optimizer_step _ => true | _ => false end.

Definition is_model_call (ev : event) : bool :=
  match ev with model_call _ _ => true | _ => false end.

Definition count (p : event -> bool) (log : list event) : nat :=
  length (filter p log).

Lemma count_app (p : event -> bool) (l1 l2 : list event) :
  count p (l1 ++ l2) = count p l1 + count p l2.
Proof.
  unfold count. now rewrite filter_app, length_app.
Qed.

Lemma count_videos (p : event -> bool) (epoch_i c : nat) :
  (forall ks, count p (video_trace epoch_i ks) = c) ->
  forall iss, count p (flat_map (video_trace epoch_i) iss) = length iss * c.
Proof.
  intros H iss. induction iss as [|ks iss IH]; [reflexivity|].
  cbn [flat_map length]. rewrite count_app, H, IH. simpl. lia.
Qed.

Lemma count_batches (p : event -> bool) (epoch_i c : nat) :
  (forall k batch, count p (batch_trace epoch_i k batch) = c) ->
  forall batches k,
    count p (batches_trace epoch_i k batches) = length batches * c.
Proof.
  intros H batches. induction batches as [|batch rest IH]; intros k;
    [reflexivity|].
  cbn [batches_trace length]. rewrite count_app, H, IH. simpl. lia.
Qed.

Lemma count_batch_trace (p : event -> bool) (epoch_i k c : nat) (batch : list sample) :
  (forall msg, p (tqdm_write epoch_i msg) = false) ->
  (forall ks, count p (video_trace epoch_i ks) = c) ->
  count p (batch_trace epoch_i k batch) =
  count p [zero_grad epoch_i] + length batch * c
  + count p [clip_grad_norm_ epoch_i (clip cfg); optimizer_step epoch_i].
Proof.
  intros Hw Hv. unfold batch_trace.
  rewrite !count_app, (@count_videos p epoch_i c Hv), indexed_length.
  destruct (verbose cfg); unfold count at 1; simpl; rewrite ?Hw; simpl; lia.
Qed.

Lemma count_video_trace_none (p : event -> bool) (epoch_i : nat) :
  (forall s, p (model_call epoch_i s) = false) ->
  (forall x, p (tqdm_write_loss epoch_i x) = false) ->
  (forall s, p (loss_backward epoch_i s) = false) ->
  forall ks, count p (video_trace epoch_i ks) = 0.
Proof.
  intros H1 H2 H3 ks. unfold video_trace, count.
  destruct (verbose cfg); simpl; now rewrite ?H1, ?H2, ?H3.
Qed.

(** C8.  Provided no F1 computation of the epoch raises (and the two sizes are
    below [2^53], so that they convert exactly to binary64), an epoch runs
    [floor(len(train_loader) / batch_size)] batches over consecutive groups of
    [batch_size] videos taken in iterator order.  Each batch issues one
    [zero_grad], then its videos one after the other, then one
    [clip_grad_norm_] with the configured maximum followed by one optimizer
    step; over the epoch each of these three calls is made once per batch and
    the network is called once per video. *)
Theorem train_epoch_batches (epoch_i : nat) (log : list event) (f1s : list value) :
  0 < batch_size cfg ->
  sizes_below_2_53 ->
  let nb := length train_loader / batch_size cfg in
  let batches := chunks (batch_size cfg) nb train_loader in
  map_result (train_f1 epoch_i) (indexed 0 (concat batches)) = Ok f1s ->
  exists v log',
    train_batches epoch_i log = (log ++ model_train epoch_i :: log', Ok v)
    /\ log' = batches_trace epoch_i 0 batches
    /\ length batches = nb
    /\ Forall (fun batch => length batch = batch_size cfg) batches
    /\ concat batches = firstn (nb * batch_size cfg) train_loader
    /\ (forall k batch,
          batch_trace epoch_i k batch =
          (if verbose cfg then [tqdm_write epoch_i "Time to train the model..."]
           else [])
          ++ [zero_grad epoch_i]
          ++ flat_map (video_trace epoch_i) (indexed k batch)
          ++ [clip_grad_norm_ epoch_i (clip cfg); optimizer_step epoch_i]
          /\ count is_zero_grad (flat_map (video_trace epoch_i) (indexed k batch)) = 0
          /\ count is_clip_grad_norm (flat_map (video_trace epoch_i) (indexed k batch)) = 0
          /\ count is_optimizer_step (flat_map (video_trace epoch_i) (indexed k batch)) = 0
          /\ map (fun ev => match ev with model_call _ s => Some s | _ => None end)
                 (filter is_model_call (batch_trace epoch_i k batch))
             = map Some batch)
    /\ count is_zero_grad log' = nb
    /\ count is_clip_grad_norm log' = nb
    /\ count is_optimizer_step log' = nb
    /\ count is_model_call log' = nb * batch_size cfg.
Proof.
  intros Hb Hsz nb batches Hf1.
  assert (Hcat : concat batches = firstn (nb * batch_size cfg) train_loader)
    by apply chunks_concat.
  assert (Hle : nb * batch_size cfg <= length train_loader).
  { subst nb. rewrite Nat.mul_comm. apply Nat.Div0.mul_div_le. }
  assert (Hfull : Forall (fun batch => length batch = batch_size cfg) batches)
    by now apply chunks_full.
  rewrite Hcat in Hf1.
  do 2 eexists. split; [exact (@train_batches_run epoch_i log f1s Hb Hsz Hf1)|].
  fold nb batches.
  split; [reflexivity|]. split; [apply chunks_length|].
  split; [exact Hfull|]. split; [exact Hcat|].
  assert (Hnone : forall p,
             (forall s, p (model_call epoch_i s) = false) ->
             (forall x, p (tqdm_write_loss epoch_i x) = false) ->
             (forall s, p (loss_backward epoch_i s) = false) ->
             forall k batch,
               count p (flat_map (video_trace epoch_i) (indexed k batch)) = 0).
  { intros p H1 H2 H3 k batch.
    rewrite (@count_videos p epoch_i 0
               (@count_video_trace_none p epoch_i H1 H2 H3)). lia. }
  split.
  { intros k batch. split; [reflexivity|].
    split; [now apply Hnone|]. split; [now apply Hnone|].
    split; [now apply Hnone|].
    unfold batch_trace. rewrite !filter_app, !map_app.
    replace (filter is_model_call
               (if verbose cfg
                then [tqdm_write epoch_i "Time to train the model..."] else []))
      with (@nil event) by now destruct (verbose cfg).
    simpl. rewrite app_nil_r. clear. revert k.
    induction batch as [|s batch IH]; intros k; simpl; [reflexivity|].
    rewrite filter_app, map_app, IH. unfold video_trace.
    now destruct (verbose cfg). }
  assert (Hone : forall p,
             (forall msg, p (tqdm_write epoch_i msg) = false) ->
             (forall s, p (model_call epoch_i s) = false) ->
             (forall x, p (tqdm_write_loss epoch_i x) = false) ->
             (forall s, p (loss_backward epoch_i s) = false) ->
             count p [zero_grad epoch_i]
             + count p [clip_grad_norm_ epoch_i (clip cfg); optimizer_step epoch_i] = 1 ->
             count p (batches_trace epoch_i 0 batches) = nb).
  { intros p H0 H1 H2 H3 H4.
    rewrite (@count_batches p epoch_i 1).
    - unfold batches. rewrite chunks_length. lia.
    - intros k batch.
      rewrite (@count_batch_trace p epoch_i k 0 batch H0
                 (@count_video_trace_none p epoch_i H1 H2 H3)). lia. }
  split; [now apply Hone|]. split; [now apply Hone|]. split; [now apply Hone|].
  clear Hone Hnone Hf1 Hcat Hle.
  assert (Hgen : forall bs k,
             Forall (fun batch => length batch = batch_size cfg) bs ->
             count is_model_call (batches_trace epoch_i k bs)
             = length bs * batch_size cfg).
  { induction bs as [|batch rest IH]; intros k Hall; simpl; [reflexivity|].
    inversion Hall as [|? ? Hlen Hrest]; subst.
    rewrite count_app, (IH _ Hrest).
    rewrite (@count_batch_trace is_model_call epoch_i k 1 batch).
    - unfold count. simpl. lia.
    - reflexivity.
    - intros ks. unfold video_trace, count. now destruct (verbose cfg). }
  rewrite (Hgen batches 0 Hfull). unfold batches. now rewrite chunks_length.
Qed.

(** ** The evaluation pass, spelt out *)

(** F1 of a video of [test_loader] or [train_infer_loader], as [evaluate]
    computes it. *)
Definition eval_f1 (epoch_i : nat) (item : video) : result value :=
  evaluate_summary (summary_of epoch_i item) (user_summary_of item) "max".

Definition evaluate_trace (epoch_i : nat) : list event :=
  [model_eval epoch_i; h5py_File epoch_i]
  ++ map (model_infer epoch_i) test_loader
  ++ map (model_infer epoch_i) train_infer_loader.

Lemma evaluate_loop_run (epoch_i : nat) (loader : list video) :
  forall (f1s vals : list value) (log : list event),
    map_result (eval_f1 epoch_i) loader = Ok vals ->
    evaluate_loop epoch_i loader f1s log =
    (log ++ map (model_infer epoch_i) loader, Ok (f1s ++ vals)).
Proof.
  induction loader as [|item rest IH]; intros f1s vals log H; simpl in H.
  - injection H as <-. simpl. unfold ret. now rewrite !app_nil_r.
  - destruct (eval_f1 epoch_i item) as [f1|] eqn:H1; [|discriminate].
    destruct (map_result _ rest) as [vals'|] eqn:H2; [|discriminate].
    injection H as <-. simpl. unfold bind, call, lift.
    unfold eval_f1 in H1. rewrite H1.
    rewrite (IH (f1s ++ [f1]) vals' _ eq_refl).
    now rewrite <- !app_assoc.
Qed.

(** [evaluate] averages every F1 value of either loader. *)
Lemma evaluate_run (epoch_i : nat) (log : list event) (t_test t_train : list value) :
  map_result (eval_f1 epoch_i) test_loader = Ok t_test ->
  map_result (eval_f1 epoch_i) train_infer_loader = Ok t_train ->
  evaluate epoch_i log =
  (log ++ evaluate_trace epoch_i, Ok (np_mean t_train, np_mean t_test)).
Proof.
  intros H1 H2. unfold evaluate, evaluate_trace, bind, call.
  rewrite (@evaluate_loop_run epoch_i test_loader [] t_test _ H1).
  rewrite (@evaluate_loop_run epoch_i train_infer_loader [] t_train _ H2).
  unfold ret. simpl. now rewrite <- !app_assoc.
Qed.

(** C5.  In the training loop the epoch's accumulator [f1_score] receives the
    F1 of a video only if [np.isnan] does not hold of it: after the batches it
    holds the F1 values of the processed videos with the NaN ones filtered out.
    In [evaluate] every F1 value of either loader, NaN or not, is appended and
    enters the mean. *)
Theorem f1_filtering_asymmetry (epoch_i : nat) (log : list event)
    (f1s t_test t_train : list value) :
  0 < batch_size cfg ->
  sizes_below_2_53 ->
  let nb := length train_loader / batch_size cfg in
  let used := firstn (nb * batch_size cfg) train_loader in
  map_result (train_f1 epoch_i) (indexed 0 used) = Ok f1s ->
  map_result (eval_f1 epoch_i) test_loader = Ok t_test ->
  map_result (eval_f1 epoch_i) train_infer_loader = Ok t_train ->
  (exists v log',
      train_batches epoch_i log = (log', Ok v)
      /\ f1_score v = filter (fun f1 => negb (np_isnan f1)) f1s
      /\ length f1s = length used)
  /\ (exists log',
         evaluate epoch_i log = (log', Ok (np_mean t_train, np_mean t_test))
         /\ length t_test = length test_loader
         /\ length t_train = length train_infer_loader).
Proof.
  intros Hb Hsz nb used Hf1 Htest Htrain.
  assert (Hlen : forall A B (f : A -> result B) xs ys,
             map_result f xs = Ok ys -> length ys = length xs).
  { intros A B f xs. induction xs as [|x xs IH]; intros ys H; simpl in H.
    - now injection H as <-.
    - destruct (f x); [|discriminate].
      destruct (map_result f xs); [|discriminate].
      injection H as <-. simpl. f_equal. now apply IH. }
  split.
  - do 2 eexists. split; [exact (@train_batches_run epoch_i log f1s Hb Hsz Hf1)|].
    split; [reflexivity|].
    rewrite (Hlen _ _ _ _ _ Hf1). apply indexed_length.
  - eexists. split; [exact (@evaluate_run epoch_i log t_test t_train Htest Htrain)|].
    split; eapply Hlen; eauto.
Qed.

(** ** The loop over epochs, spelt out *)

(** The videos an epoch processes. *)
Definition used_samples : list sample :=
  firstn (length train_loader / batch_size cfg * batch_size cfg) train_loader.

(** Mean loss of an epoch, and the [last_loss] it is compared with. *)
Definition epoch_loss (epoch_i : nat) : num :=
  stack_mean (map (train_loss epoch_i) (indexed 0 used_samples)).

Definition last_loss_at (epoch_i : nat) : num :=
  match epoch_i with
  | O => num_of_int 100000
  | S e => epoch_loss e
  end.

Definition epoch_diff (epoch_i : nat) : num :=
  loss_diff (epoch_loss epoch_i) (last_loss_at epoch_i).

(** [diff >= tol] at the end of epoch [epoch_i]. *)
Definition stops (epoch_i : nat) : bool :=
  num_geb (epoch_diff epoch_i) (num_of_int tol).

(** No F1 computation of the epoch's batches, respectively of its evaluation
    pass, raises. *)
Definition train_ok (epoch_i : nat) : Prop :=
  exists f1s, map_result (train_f1 epoch_i) (indexed 0 used_samples) = Ok f1s.

Definition eval_ok (epoch_i : nat) : Prop :=
  exists t_test t_train,
    map_result (eval_f1 epoch_i) test_loader = Ok t_test
    /\ map_result (eval_f1 epoch_i) train_infer_loader = Ok t_train.

Definition values (r : result (list value)) : list value :=
  match r with Ok l => l | Raise _ => [] end.

Definition avg_f1_test (epoch_i : nat) : value :=
  np_mean (values (map_result (eval_f1 epoch_i) test_loader)).

Definition avg_f1_train (epoch_i : nat) : value :=
  np_mean (values (map_result (eval_f1 epoch_i) train_infer_loader)).

(** Calls of the batches of an epoch, and of what follows them when the epoch
    does not stop the training. *)
Definition train_trace (epoch_i : nat) : list event :=
  model_train epoch_i
  :: batches_trace epoch_i 0
       (chunks (batch_size cfg) (length train_loader / batch_size cfg) train_loader).

Definition after_trace (epoch_i : nat) : list event :=
  (if verbose cfg then [tqdm_write epoch_i "Plotting..."] else [])
  ++ [update_loss epoch_i "loss_epoch" (inl (epoch_loss epoch_i));
      makedirs_if_missing epoch_i (save_dir cfg);
      tqdm_write epoch_i ("Save parameters at " ++ ckpt_path);
      torch_save epoch_i ckpt_path]
  ++ evaluate_trace epoch_i
  ++ [update_loss epoch_i "f1_train" (inr (avg_f1_train epoch_i));
      update_loss epoch_i "f1_test" (inr (avg_f1_test epoch_i));
      logfile_write epoch_i (epoch_loss epoch_i) (epoch_diff epoch_i)
                    (avg_f1_train epoch_i) (avg_f1_test epoch_i);
      print epoch_i (epoch_loss epoch_i) (epoch_diff epoch_i)
            (avg_f1_train epoch_i) (avg_f1_test epoch_i)].

(** Checkpoint, evaluation pass and metric logging. *)
Definition is_checkpoint_eval_or_log (ev : event) : bool :=
  match ev with
  | update_loss _ _ _ | makedirs_if_missing _ _ | torch_save _ _
  | model_eval _ | h5py_File _ | model_infer _ _
  | logfile_write _ _ _ _ _ | print _ _ _ _ _ => true
  | _ => false
  end.

Definition epoch_of (ev : event) : option nat :=
  match ev with
  | open_logfile => None
  | model_train e | tqdm_write e _ | tqdm_write_loss e _ | zero_grad e
  | model_call e _ | loss_backward e _ | clip_grad_norm_ e _ | optimizer_step e
  | update_loss e _ _ | makedirs_if_missing e _ | torch_save e _ | model_eval e
  | h5py_File e | model_infer e _ | logfile_write e _ _ _ _ | print e _ _ _ _ =>
      Some e
  end.

Lemma used_samples_nonempty :
  0 < batch_size cfg <= length train_loader ->
  map (train_loss 0) (indexed 0 used_samples) <> [].
Proof.
  intros [Hb Hn] E. apply (f_equal (@length num)) in E.
  rewrite length_map, indexed_length in E. unfold used_samples in E.
  rewrite firstn_length_le in E
    by (rewrite Nat.mul_comm; apply Nat.Div0.mul_div_le).
  simpl in E.
  assert (1 <= length train_loader / batch_size cfg)
    by (apply Nat.div_le_lower_bound; lia).
  nia.
Qed.

Lemma loss_history_nonempty (epoch_i : nat) :
  0 < batch_size cfg <= length train_loader ->
  map (train_loss epoch_i) (indexed 0 used_samples) <> [].
Proof.
  intros H E. apply (used_samples_nonempty H).
  apply (f_equal (@length num)) in E. rewrite length_map in *.
  destruct (indexed 0 used_samples); [reflexivity|discriminate].
Qed.

(** An epoch whose [diff] reaches the tolerance ends after its batches. *)
Lemma epoch_body_break (epoch_i : nat) (last_loss : num) (log : list event) :
  0 < batch_size cfg <= length train_loader ->
  (Z.of_nat (length train_loader) < 2 ^ 53)%Z ->
  train_ok epoch_i ->
  num_geb (loss_diff (epoch_loss epoch_i) last_loss) (num_of_int tol) = true ->
  epoch_body epoch_i last_loss log = (log ++ train_trace epoch_i, Ok Break).
Proof.
  intros Hb Hn [f1s Hf1] Hstop. unfold epoch_body. unfold bind at 1.
  assert (Hsz : sizes_below_2_53) by (split; [exact Hn|lia]).
  rewrite (@train_batches_run epoch_i log f1s (proj1 Hb) Hsz Hf1).
  cbn [loss_history]. fold used_samples.
  pose proof (@loss_history_nonempty epoch_i Hb) as Hne.
  unfold bind at 1, lift.
  destruct (map (train_loss epoch_i) (indexed 0 used_samples)) as [|l ls] eqn:E;
    [congruence|].
  unfold epoch_loss in Hstop. rewrite E in Hstop. rewrite Hstop.
  reflexivity.
Qed.

(** An epoch whose [diff] stays below the tolerance saves the checkpoint, runs
    the evaluation pass, logs, and hands its loss to the next epoch. *)
Lemma epoch_body_continue (epoch_i : nat) (log : list event) :
  0 < batch_size cfg <= length train_loader ->
  (Z.of_nat (length train_loader) < 2 ^ 53)%Z ->
  train_ok epoch_i -> eval_ok epoch_i ->
  stops epoch_i = false ->
  epoch_body epoch_i (last_loss_at epoch_i) log =
  (log ++ train_trace epoch_i ++ after_trace epoch_i,
   Ok (Continue (epoch_loss epoch_i))).
Proof.
  intros Hb Hn [f1s Hf1] (t_test & t_train & Htest & Htrain) Hstop.
  unfold epoch_body. unfold bind at 1.
  assert (Hsz : sizes_below_2_53) by (split; [exact Hn|lia]).
  rewrite (@train_batches_run epoch_i log f1s (proj1 Hb) Hsz Hf1).
  cbn [loss_history]. fold used_samples.
  pose proof (@loss_history_nonempty epoch_i Hb) as Hne.
  unfold bind at 1, lift.
  unfold stops, epoch_diff, epoch_loss in Hstop.
  unfold after_trace, avg_f1_test, avg_f1_train, epoch_diff, epoch_loss.
  rewrite Htest, Htrain. cbn [values].
  destruct (map (train_loss epoch_i) (indexed 0 used_samples)) as [|l ls] eqn:E;
    [congruence|].
  rewrite Hstop.
  unfold bind, when, call, ret.
  destruct (verbose cfg);
    rewrite (@evaluate_run epoch_i _ t_test t_train Htest Htrain);
    unfold train_trace; simpl; rewrite <- !app_assoc; simpl;
    rewrite <- ?app_assoc; reflexivity.
Qed.

Lemma epoch_loop_halts (d : nat) :
  forall (start m : nat) (log : list event),
    0 < batch_size cfg <= length train_loader ->
    (Z.of_nat (length train_loader) < 2 ^ 53)%Z ->
    d < m ->
    (forall j, start <= j < start + d ->
               stops j = false /\ train_ok j /\ eval_ok j) ->
    train_ok (start + d) ->
    stops (start + d) = true ->
    epoch_loop (seq start m) (last_loss_at start) log =
    (log ++ flat_map (fun j => train_trace j ++ after_trace j) (seq start d)
         ++ train_trace (start + d),
     Ok tt).
Proof.
  induction d as [|d IH]; intros start m log Hb Hn Hm Hbefore Hok Hstop;
    (destruct m as [|m]; [lia|]); simpl seq; simpl epoch_loop; unfold bind.
  - rewrite Nat.add_0_r in *.
    rewrite (@epoch_body_break start (last_loss_at start) log Hb Hn Hok Hstop).
    reflexivity.
  - destruct (Hbefore start ltac:(lia)) as (Hs & Ht & He).
    rewrite (@epoch_body_continue start log Hb Hn Ht He Hs).
    change (epoch_loss start) with (last_loss_at (S start)).
    rewrite (IH (S start) m).
    + cbn [seq flat_map]. rewrite <- !app_assoc.
      replace (S start + d) with (start + S d) by lia.
      reflexivity.
    + exact Hb.
    + exact Hn.
    + lia.
    + intros j Hj. apply Hbefore. lia.
    + now replace (S start + d) with (start + S d) by lia.
    + now replace (S start + d) with (start + S d) by lia.
Qed.

Lemma train_trace_events (epoch_i : nat) :
  Forall (fun ev => epoch_of ev = Some epoch_i
                    /\ is_checkpoint_eval_or_log ev = false)
         (train_trace epoch_i).
Proof.
  unfold train_trace. constructor; [auto|].
  generalize 0 at 1.
  generalize (chunks (batch_size cfg) (length train_loader / batch_size cfg)
                     train_loader).
  induction l as [|batch rest IH]; intros k; simpl; [constructor|].
  apply Forall_app. split; [|apply IH].
  unfold batch_trace. rewrite !Forall_app. repeat split.
  - destruct (verbose cfg); repeat constructor.
  - repeat constructor.
  - apply Forall_flat_map, Forall_forall. intros ks _. unfold video_trace.
    destruct (verbose cfg); repeat constructor.
  - repeat constructor.
Qed.

Lemma after_trace_events (epoch_i : nat) :
  Forall (fun ev => epoch_of ev = Some epoch_i) (after_trace epoch_i).
Proof.
  unfold after_trace, evaluate_trace. rewrite !Forall_app. repeat split.
  - destruct (verbose cfg); repeat constructor.
  - repeat constructor.
  - repeat constructor.
  - apply Forall_map, Forall_forall. auto.
  - apply Forall_map, Forall_forall. auto.
  - repeat constructor.
Qed.

(** C1.  Let epoch [k] be the first whose relative change of the mean loss,
    [diff = (current_loss - last_loss) / current_loss * 100], satisfies
    [diff >= 7] (nothing raising up to there).  Then [train] returns after the
    batches of epoch [k]: the epochs before [k] each ran their batches, saved
    the checkpoint, ran the evaluation pass and logged; for epoch [k] no
    checkpoint is saved, no evaluation pass is run and no metric is logged;
    no later epoch is started. *)
Theorem train_early_stopping (k : nat) :
  0 < batch_size cfg <= length train_loader ->
  (Z.of_nat (length train_loader) < 2 ^ 53)%Z ->
  k < n_epochs cfg ->
  (forall j, j < k -> stops j = false /\ train_ok j /\ eval_ok j) ->
  train_ok k ->
  stops k = true ->
  exists log,
    train [] = (log, Ok tt)
    /\ log = open_logfile
             :: flat_map (fun j => train_trace j ++ after_trace j) (seq 0 k)
             ++ train_trace k
    /\ (forall ev, In ev log -> epoch_of ev = Some k ->
                   is_checkpoint_eval_or_log ev = false)
    /\ (forall ev e, In ev log -> epoch_of ev = Some e -> e <= k)
    /\ (forall j, j < k ->
                  In (torch_save j ckpt_path) log
                  /\ In (model_eval j) log
                  /\ In (logfile_write j (epoch_loss j) (epoch_diff j)
                                       (avg_f1_train j) (avg_f1_test j)) log).
Proof.
  intros Hb Hn Hk Hbefore Hok Hstop.
  exists (open_logfile
            :: flat_map (fun j => train_trace j ++ after_trace j) (seq 0 k)
            ++ train_trace k).
  split.
  { unfold train, bind, call. simpl app.
    exact (@epoch_loop_halts k 0 (n_epochs cfg) [open_logfile] Hb Hn Hk
             (fun j Hj => Hbefore j (proj2 Hj)) Hok Hstop). }
  split; [reflexivity|].
  assert (Hearlier : forall ev,
             In ev (flat_map (fun j => train_trace j ++ after_trace j) (seq 0 k)) ->
             exists j, j < k /\ epoch_of ev = Some j).
  { intros ev Hin. apply in_flat_map in Hin. destruct Hin as (j & Hj & Hev).
    apply in_seq in Hj. exists j. split; [lia|].
    apply in_app_iff in Hev. destruct Hev as [Hev|Hev].
    - pose proof (train_trace_events j) as H. rewrite Forall_forall in H.
      now apply H.
    - pose proof (after_trace_events j) as H. rewrite Forall_forall in H.
      now apply H. }
  assert (Hlast : forall ev, In ev (train_trace k) ->
                             epoch_of ev = Some k
                             /\ is_checkpoint_eval_or_log ev = false).
  { pose proof (train_trace_events k) as H. now rewrite Forall_forall in H. }
  split; [|split].
  - intros ev [<-|Hin] He; [discriminate|].
    apply in_app_iff in Hin. destruct Hin as [Hin|Hin].
    + destruct (Hearlier ev Hin) as (j & Hj & Hej). rewrite Hej in He.
      injection He as ->. lia.
    + now apply Hlast.
  - intros ev e [<-|Hin] He; [discriminate|].
    apply in_app_iff in Hin. destruct Hin as [Hin|Hin].
    + destruct (Hearlier ev Hin) as (j & Hj & Hej). rewrite Hej in He.
      injection He as ->. lia.
    + destruct (Hlast ev Hin) as [Hek _]. rewrite Hek in He.
      injection He as ->. lia.
  - intros j Hj.
    assert (Hsub : forall ev, In ev (after_trace j) ->
                              In ev (open_logfile
                                       :: flat_map (fun j => train_trace j ++ after_trace j)
                                            (seq 0 k)
                                       ++ train_trace k)).
    { intros ev Hin. right. apply in_app_iff. left. apply in_flat_map.
      exists j. split; [apply in_seq; lia|]. apply in_app_iff. now right. }
    repeat split; apply Hsub; unfold after_trace, evaluate_trace;
      rewrite !in_app_iff; simpl; auto 10.
Qed.

(** ** Further properties of the training loop *)

(** The videos passed to the network, in the order of the calls. *)
Definition model_calls (log : list event) : list sample :=
  flat_map (fun ev => match ev with model_call _ s => [s] | _ => [] end) log.

Lemma model_calls_app (l1 l2 : list event) :
  model_calls (l1 ++ l2) = model_calls l1 ++ model_calls l2.
Proof. apply flat_map_app. Qed.

Lemma model_calls_videos (epoch_i k : nat) (batch : list sample) :
  model_calls (flat_map (video_trace epoch_i) (indexed k batch)) = batch.
Proof.
  revert k. induction batch as [|s batch IH]; intros k; [reflexivity|].
  cbn [indexed flat_map]. rewrite model_calls_app, IH.
  unfold video_trace. now destruct (verbose cfg).
Qed.

Lemma model_calls_batches (epoch_i : nat) (batches : list (list sample)) :
  forall k, model_calls (batches_trace epoch_i k batches) = concat batches.
Proof.
  induction batches as [|batch rest IH]; intros k; [reflexivity|].
  cbn [batches_trace concat]. rewrite model_calls_app, IH. f_equal.
  unfold batch_trace. rewrite !model_calls_app, model_calls_videos.
  destruct (verbose cfg); simpl; now rewrite app_nil_r.
Qed.

(** X9.  An epoch gives the network the first
    [floor(n / batch_size) * batch_size] videos of the loader, in order, and
    never the remaining [n mod batch_size] ones, which are left in the
    iterator. *)
Theorem train_batches_drop_remainder (epoch_i : nat) (log : list event) :
  0 < batch_size cfg ->
  sizes_below_2_53 ->
  train_ok epoch_i ->
  exists v log',
    train_batches epoch_i log = (log ++ log', Ok v)
    /\ model_calls log' ++ iterator v = train_loader
    /\ length (iterator v) = length train_loader mod batch_size cfg
    /\ length (loss_history v) = length (model_calls log').
Proof.
  intros Hb Hsz [f1s Hf1].
  pose proof (@train_batches_run epoch_i log f1s Hb Hsz Hf1) as Hrun.
  cbv zeta in Hrun.
  set (nb := length train_loader / batch_size cfg) in *.
  assert (Hle : nb * batch_size cfg <= length train_loader).
  { subst nb. rewrite Nat.mul_comm. apply Nat.Div0.mul_div_le. }
  do 2 eexists. split; [exact Hrun|].
  cbn [iterator loss_history].
  change (model_train epoch_i
            :: batches_trace epoch_i 0 (chunks (batch_size cfg) nb train_loader))
    with ([model_train epoch_i]
            ++ batches_trace epoch_i 0 (chunks (batch_size cfg) nb train_loader)).
  rewrite model_calls_app, model_calls_batches, chunks_concat. cbn [model_calls flat_map app].
  split; [apply firstn_skipn|]. split.
  - rewrite length_skipn.
    pose proof (Nat.div_mod_eq (length train_loader) (batch_size cfg)) as Hdm.
    fold nb in Hdm. lia.
  - now rewrite length_map, indexed_length.
Qed.

(** X10.  With [batch_size = 0] the first epoch raises [ZeroDivisionError]
    when it computes the number of batches: no batch is run, nothing is
    saved. *)
Theorem train_zero_batch_size :
  batch_size cfg = 0 ->
  0 < n_epochs cfg ->
  train [] = ([open_logfile; model_train 0], Raise ZeroDivisionError).
Proof.
  intros Hb Hn. unfold train. destruct (n_epochs cfg) as [|n]; [lia|].
  cbn [seq epoch_loop]. unfold bind at 1 2, call at 1.
  unfold epoch_body, bind at 1, train_batches. rewrite Hb.
  reflexivity.
Qed.

(** X11.  With fewer videos than [batch_size] (an empty loader included) an
    epoch has no batch, the loss history is empty and the first epoch raises
    when it takes the mean: the optimizer never steps, nothing is saved. *)
Theorem train_too_few_videos :
  length train_loader < batch_size cfg ->
  (Z.of_nat (batch_size cfg) < 2 ^ 53)%Z ->
  0 < n_epochs cfg ->
  train [] = ([open_logfile; model_train 0], Raise RuntimeError).
Proof.
  intros Hlt Hb Hn. unfold train. destruct (n_epochs cfg) as [|n]; [lia|].
  cbn [seq epoch_loop]. unfold bind at 1 2, call at 1.
  unfold epoch_body, bind at 1, train_batches.
  rewrite (@num_batches_floor (length train_loader) (batch_size cfg))
    by lia.
  rewrite Nat.div_small by exact Hlt.
  reflexivity.
Qed.

(** Epochs that do not stop the training are run one after the other. *)
Lemma epoch_loop_continue (d : nat) :
  forall (start m : nat) (log : list event),
    0 < batch_size cfg <= length train_loader ->
    (Z.of_nat (length train_loader) < 2 ^ 53)%Z ->
    (forall j, start <= j < start + d ->
               stops j = false /\ train_ok j /\ eval_ok j) ->
    epoch_loop (seq start (d + m)) (last_loss_at start) log =
    epoch_loop (seq (start + d) m) (last_loss_at (start + d))
      (log ++ flat_map (fun j => train_trace j ++ after_trace j) (seq start d)).
Proof.
  induction d as [|d IH]; intros start m log Hb Hn Hall.
  - cbn [seq flat_map Nat.add]. now rewrite Nat.add_0_r, app_nil_r.
  - cbn [Nat.add seq epoch_loop flat_map]. unfold bind.
    destruct (Hall start ltac:(lia)) as (Hs & Ht & He).
    rewrite (@epoch_body_continue start log Hb Hn Ht He Hs).
    change (epoch_loss start) with (last_loss_at (S start)).
    rewrite (IH (S start) m) by (auto; intros j Hj; apply Hall; lia).
    replace (S start + d) with (start + S d) by lia.
    now rewrite <- !app_assoc.
Qed.

(** X12.  When no epoch reaches the tolerance (and nothing raises), [train]
    runs all [n_epochs] epochs: each one runs its batches, saves the
    checkpoint at the same path, runs the evaluation pass and writes its line
    to the log file. *)
Theorem train_runs_all_epochs :
  0 < batch_size cfg <= length train_loader ->
  (Z.of_nat (length train_loader) < 2 ^ 53)%Z ->
  (forall j, j < n_epochs cfg -> stops j = false /\ train_ok j /\ eval_ok j) ->
  exists log,
    train [] = (log, Ok tt)
    /\ log = open_logfile
             :: flat_map (fun j => train_trace j ++ after_trace j)
                         (seq 0 (n_epochs cfg))
    /\ (forall j, j < n_epochs cfg ->
                  In (torch_save j ckpt_path) log
                  /\ In (model_eval j) log
                  /\ In (logfile_write j (epoch_loss j) (epoch_diff j)
                                       (avg_f1_train j) (avg_f1_test j)) log)
    /\ (forall ev e, In ev log -> epoch_of ev = Some e -> e < n_epochs cfg).
Proof.
  intros Hb Hn Hall.
  exists (open_logfile
            :: flat_map (fun j => train_trace j ++ after_trace j)
                        (seq 0 (n_epochs cfg))).
  split.
  { unfold train, bind, call. cbn [app].
    pose proof (@epoch_loop_continue (n_epochs cfg) 0 0 [open_logfile] Hb Hn
                  (fun j Hj => Hall j (proj2 Hj))) as H.
    rewrite Nat.add_0_r in H. exact H. }
  split; [reflexivity|]. split.
  - intros j Hj.
    assert (Hsub : forall ev, In ev (after_trace j) ->
                              In ev (open_logfile
                                       :: flat_map (fun j => train_trace j ++ after_trace j)
                                            (seq 0 (n_epochs cfg)))).
    { intros ev Hin. right. apply in_flat_map.
      exists j. split; [apply in_seq; lia|]. apply in_app_iff. now right. }
    repeat split; apply Hsub; unfold after_trace, evaluate_trace;
      rewrite !in_app_iff; simpl; auto 10.
  - intros ev e [<-|Hin] He; [discriminate|].
    apply in_flat_map in Hin. destruct Hin as (j & Hj & Hev).
    apply in_seq in Hj.
    assert (Hej : epoch_of ev = Some j).
    { apply in_app_iff in Hev. destruct Hev as [Hev|Hev].
      - pose proof (train_trace_events j) as H. rewrite Forall_forall in H.
        now apply H.
      - pose proof (after_trace_events j) as H. rewrite Forall_forall in H.
        now apply H. }
    rewrite Hej in He. injection He as <-. lia.
Qed.

(** A loop of [evaluate] stops at the first video whose F1 computation
    raises. *)
Lemma evaluate_loop_raises (epoch_i : nat) (loader : list video) :
  forall (f1s : list value) (log : list event) (ex : exn),
    map_result (eval_f1 epoch_i) loader = Raise ex ->
    exists visited rest,
      loader = visited ++ rest
      /\ evaluate_loop epoch_i loader f1s log =
         (log ++ map (model_infer epoch_i) visited, Raise ex).
Proof.
  induction loader as [|item rest IH]; intros f1s log ex H; [discriminate|].
  cbn [map_result] in H. cbn [evaluate_loop]. unfold bind, call, lift.
  fold (eval_f1 epoch_i item).
  destruct (eval_f1 epoch_i item) as [f1|ex'] eqn:H1.
  - destruct (map_result (eval_f1 epoch_i) rest) as [vals|ex''] eqn:H2;
      [discriminate|].
    injection H as <-.
    destruct (IH (f1s ++ [f1]) (log ++ [model_infer epoch_i item]) ex'' eq_refl)
      as (visited & rest' & -> & Hrun).
    exists (item :: visited), rest'. split; [reflexivity|].
    rewrite Hrun. cbn [map]. now rewrite <- app_assoc.
  - injection H as <-. exists [item], rest. split; reflexivity.
Qed.

(** Calls of an epoch between its batches and its evaluation pass. *)
Definition save_trace (epoch_i : nat) : list event :=
  (if verbose cfg then [tqdm_write epoch_i "Plotting..."] else [])
  ++ [update_loss epoch_i "loss_epoch" (inl (epoch_loss epoch_i));
      makedirs_if_missing epoch_i (save_dir cfg);
      tqdm_write epoch_i ("Save parameters at " ++ ckpt_path);
      torch_save epoch_i ckpt_path].

(** Calls that report the F1 values of an epoch. *)
Definition reports_f1 (ev : event) : bool :=
  match ev with
  | update_loss _ _ (inr _) | logfile_write _ _ _ _ _ | print _ _ _ _ _ => true
  | _ => false
  end.

Lemma epoch_body_eval_raises (epoch_i : nat) (log : list event) (ex : exn) :
  0 < batch_size cfg <= length train_loader ->
  (Z.of_nat (length train_loader) < 2 ^ 53)%Z ->
  train_ok epoch_i ->
  stops epoch_i = false ->
  map_result (eval_f1 epoch_i) test_loader = Raise ex ->
  exists visited rest,
    test_loader = visited ++ rest
    /\ epoch_body epoch_i (last_loss_at epoch_i) log =
       (log ++ train_trace epoch_i ++ save_trace epoch_i
            ++ [model_eval epoch_i; h5py_File epoch_i]
            ++ map (model_infer epoch_i) visited,
        Raise ex).
Proof.
  intros Hb Hn [f1s Hf1] Hstop Htest.
  unfold epoch_body. unfold bind at 1.
  assert (Hsz : sizes_below_2_53) by (split; [exact Hn|lia]).
  rewrite (@train_batches_run epoch_i log f1s (proj1 Hb) Hsz Hf1).
  cbn [loss_history]. fold used_samples.
  pose proof (@loss_history_nonempty epoch_i Hb) as Hne.
  unfold bind at 1, lift.
  unfold stops, epoch_diff, epoch_loss in Hstop.
  unfold save_trace, epoch_loss.
  destruct (map (train_loss epoch_i) (indexed 0 used_samples)) as [|l ls] eqn:E;
    [congruence|].
  rewrite Hstop.
  assert (Heval : forall log0, exists visited rest,
             test_loader = visited ++ rest
             /\ evaluate epoch_i log0 =
                (log0 ++ [model_eval epoch_i; h5py_File epoch_i]
                      ++ map (model_infer epoch_i) visited, Raise ex)).
  { intros log0. unfold evaluate, bind, call.
    destruct (@evaluate_loop_raises epoch_i test_loader []
                ((log0 ++ [model_eval epoch_i]) ++ [h5py_File epoch_i]) ex Htest)
      as (visited & rest & Hsplit & Hrun).
    exists visited, rest. split; [exact Hsplit|]. rewrite Hrun.
    now rewrite <- !app_assoc. }
  unfold bind, when, call, ret.
  destruct (verbose cfg);
    edestruct Heval as (visited & rest & Hsplit & Hrun);
    exists visited, rest; (split; [exact Hsplit|]); rewrite Hrun;
    unfold train_trace; simpl; rewrite <- !app_assoc; simpl;
    rewrite <- ?app_assoc; reflexivity.
Qed.

(** X13.  The checkpoint is written before the evaluation pass.  When the F1
    computation of a video of [test_loader] raises during the evaluation of
    epoch [k] (the first failure of the run), [train] ends with that
    exception: the checkpoint of epoch [k] has been saved, [train_infer_loader]
    is not visited and no F1 of epoch [k] is reported to the writer, the log
    file or the console. *)
Theorem train_evaluation_failure (k : nat) (ex : exn) :
  0 < batch_size cfg <= length train_loader ->
  (Z.of_nat (length train_loader) < 2 ^ 53)%Z ->
  k < n_epochs cfg ->
  (forall j, j < k -> stops j = false /\ train_ok j /\ eval_ok j) ->
  train_ok k ->
  stops k = false ->
  map_result (eval_f1 k) test_loader = Raise ex ->
  exists log visited rest,
    train [] = (log, Raise ex)
    /\ test_loader = visited ++ rest
    /\ log = open_logfile
             :: flat_map (fun j => train_trace j ++ after_trace j) (seq 0 k)
             ++ train_trace k ++ save_trace k
             ++ [model_eval k; h5py_File k] ++ map (model_infer k) visited
    /\ In (torch_save k ckpt_path) log
    /\ (forall ev, In ev log -> epoch_of ev = Some k -> reports_f1 ev = false).
Proof.
  intros Hb Hn Hk Hbefore Hok Hstop Htest.
  destruct (@epoch_body_eval_raises k
              ([open_logfile]
                 ++ flat_map (fun j => train_trace j ++ after_trace j) (seq 0 k))
              ex Hb Hn Hok Hstop Htest) as (visited & rest & Hsplit & Hrun).
  exists (open_logfile
            :: flat_map (fun j => train_trace j ++ after_trace j) (seq 0 k)
            ++ train_trace k ++ save_trace k
            ++ [model_eval k; h5py_File k] ++ map (model_infer k) visited),
    visited, rest.
  split.
  { unfold train. unfold bind at 1, call at 1. cbn [app].
    replace (n_epochs cfg) with (k + S (n_epochs cfg - S k)) by lia.
    change (num_of_int 100000) with (last_loss_at 0).
    rewrite (@epoch_loop_continue k 0 (S (n_epochs cfg - S k)) [open_logfile] Hb Hn
               (fun j Hj => Hbefore j (proj2 Hj))).
    cbn [Nat.add seq epoch_loop]. unfold bind. rewrite Hrun.
    cbn [app]. rewrite <- ?app_assoc. reflexivity. }
  split; [exact Hsplit|]. split; [reflexivity|]. split.
  - right. rewrite !in_app_iff. right. right. left.
    unfold save_trace. rewrite in_app_iff. right. simpl. auto.
  - intros ev [<-|Hin] He; [discriminate|].
    rewrite !in_app_iff in Hin.
    destruct Hin as [Hin|[Hin|[Hin|[Hin|Hin]]]].
    + apply in_flat_map in Hin. destruct Hin as (j & Hj & Hev).
      apply in_seq in Hj.
      assert (Hej : epoch_of ev = Some j).
      { apply in_app_iff in Hev. destruct Hev as [Hev|Hev].
        - pose proof (train_trace_events j) as H. rewrite Forall_forall in H.
          now apply H.
        - pose proof (after_trace_events j) as H. rewrite Forall_forall in H.
          now apply H. }
      rewrite Hej in He. injection He as ->. lia.
    + pose proof (train_trace_events k) as H. rewrite Forall_forall in H.
      destruct (H ev Hin) as [_ Hc]. destruct ev; try reflexivity; discriminate Hc.
    + unfold save_trace in Hin. rewrite in_app_iff in Hin.
      destruct Hin as [Hin|Hin].
      * destruct (verbose cfg); [destruct Hin as [<-|[]]; reflexivity|destruct Hin].
      * simpl in Hin. destruct Hin as [<-|[<-|[<-|[<-|[]]]]]; reflexivity.
    + simpl in Hin. destruct Hin as [<-|[<-|[]]]; reflexivity.
    + apply in_map_iff in Hin. destruct Hin as (item & <- & _). reflexivity.
Qed.

End Solver.

(* ================================================================== *)
(** * A small concrete run *)

(** Losses in binary32; five training videos in batches of two; the mean loss
    goes from 1.0 at epoch 0 to 2.0 at epoch 1. *)
Module Demo.

Definition f32_of_Z (z : Z) : spec_float := binary_normalize 24 128 z 0 false.
Definition f32_sub := SFsub 24 128.
Definition f32_div := SFdiv 24 128.
Definition f32_mul := SFmul 24 128.
Definition f32_add := SFadd 24 128.
Definition f32_geb (a b : spec_float) : bool := SFleb b a.

Definition cfg : config spec_float :=
  mk_config 3 2 (f32_of_Z 5) false "ckpt".

Definition train_loader : list nat := [0; 1; 2; 3; 4].
Definition test_loader : list nat := [0; 1].
Definition train_infer_loader : list nat := [2].

Definition forward (epoch_i k s : nat) : list Z * spec_float :=
  (if Nat.even s then [0; 0; 0]%Z else [1; 0; 1]%Z,
   f32_of_Z (Z.of_nat (S epoch_i))).

Definition target_of (s : nat) : ndarray2 := mk_ndarray2 3 [[1; 0; 1]%Z].

Definition stack_mean (losses : list spec_float) : spec_float :=
  f32_div (fold_left f32_add losses (S754_zero false))
          (f32_of_Z (Z.of_nat (length losses))).

Definition summary_of (epoch_i item : nat) : list Z :=
  if Nat.eqb item 0 then [0; 0]%Z else [1; 1]%Z.

Definition user_summary_of (item : nat) : ndarray2 :=
  mk_ndarray2 2 [[1; 0]%Z; [0; 1]%Z].

Definition np_mean (l : list value) : value :=
  match py_truediv (py_sum l) (PyInt (Z.of_nat (length l))) with
  | Ok v => v
  | Raise _ => NpFloat64 S754_nan
  end.

End Demo.

Definition demo_stops : nat -> bool :=
  stops Demo.f32_of_Z Demo.f32_sub Demo.f32_div Demo.f32_mul Demo.f32_geb
        Demo.cfg Demo.train_loader Demo.forward Demo.stack_mean.

Definition demo_train : M spec_float nat nat unit :=
  train Demo.f32_of_Z Demo.f32_sub Demo.f32_div Demo.f32_mul Demo.f32_geb
        Demo.cfg Demo.train_loader Demo.test_loader Demo.train_infer_loader
        Demo.forward Demo.target_of Demo.stack_mean
        Demo.summary_of Demo.user_summary_of Demo.np_mean.

Lemma demo_train_ok (j : nat) :
  train_ok Demo.cfg Demo.train_loader Demo.forward Demo.target_of j.
Proof.
  eexists. vm_compute. reflexivity.
Qed.

Lemma demo_eval_ok (j : nat) :
  eval_ok Demo.test_loader Demo.train_infer_loader
          Demo.summary_of Demo.user_summary_of j.
Proof.
  do 2 eexists. split; vm_compute; reflexivity.
Qed.

Lemma train_early_stopping_witness :
  0 < batch_size Demo.cfg <= length Demo.train_loader
  /\ (Z.of_nat (length Demo.train_loader) < 2 ^ 53)%Z
  /\ 1 < n_epochs Demo.cfg
  /\ demo_stops 0 = false
  /\ demo_stops 1 = true
  /\ exists log : list (event spec_float nat nat),
       demo_train [] = (log, Ok tt)
       /\ (forall ev, In ev log -> epoch_of ev = Some 1 ->
                      is_checkpoint_eval_or_log ev = false)
       /\ In (torch_save spec_float nat nat 0 (ckpt_path Demo.cfg)) log.
Proof.
  assert (Hb : 0 < batch_size Demo.cfg <= length Demo.train_loader)
    by (simpl; lia).
  assert (Hn : (Z.of_nat (length Demo.train_loader) < 2 ^ 53)%Z) by reflexivity.
  assert (Hk : 1 < n_epochs Demo.cfg) by (simpl; lia).
  assert (H0 : demo_stops 0 = false) by (vm_compute; reflexivity).
  assert (H1 : demo_stops 1 = true) by (vm_compute; reflexivity).
  split; [exact Hb|]. split; [exact Hn|]. split; [exact Hk|].
  split; [exact H0|]. split; [exact H1|].
  assert (Hbefore : forall j, j < 1 ->
             demo_stops j = false
             /\ train_ok Demo.cfg Demo.train_loader Demo.forward Demo.target_of j
             /\ eval_ok Demo.test_loader Demo.train_infer_loader
                        Demo.summary_of Demo.user_summary_of j).
  { intros j Hj. assert (j = 0) by lia. subst j.
    split; [exact H0|]. split; [apply demo_train_ok|apply demo_eval_ok]. }
  destruct (@train_early_stopping
              _ Demo.f32_of_Z Demo.f32_sub Demo.f32_div Demo.f32_mul Demo.f32_geb
              _ _ Demo.cfg Demo.train_loader Demo.test_loader
              Demo.train_infer_loader Demo.forward Demo.target_of
              Demo.stack_mean Demo.summary_of Demo.user_summary_of Demo.np_mean
              1 Hb Hn Hk Hbefore (demo_train_ok 1) H1)
    as (log & Hrun & _ & Hnone & _ & Hsaved).
  exists log. split; [exact Hrun|]. split; [exact Hnone|].
  exact (proj1 (Hsaved 0 Nat.lt_0_1)).
Defined.

Definition demo_f1s : list value :=
  [NpFloat64 S754_nan; NpFloat64 (S754_finite false 7036874417766400 (-46));
   NpFloat64 S754_nan; NpFloat64 (S754_finite false 7036874417766400 (-46))].

Definition demo_t_test : list value :=
  [NpFloat64 S754_nan; NpFloat64 (S754_finite false 4691249611844267 (-46))].

Definition demo_t_train : list value :=
  [NpFloat64 (S754_finite false 4691249611844267 (-46))].

Lemma f1_filtering_asymmetry_witness :
  0 < batch_size Demo.cfg
  /\ sizes_below_2_53 Demo.cfg Demo.train_loader
  /\ map_result (train_f1 Demo.forward Demo.target_of 0)
       (indexed 0 (firstn (length Demo.train_loader / batch_size Demo.cfg
                           * batch_size Demo.cfg) Demo.train_loader))
     = Ok demo_f1s
  /\ map_result (eval_f1 Demo.summary_of Demo.user_summary_of 0) Demo.test_loader
     = Ok demo_t_test
  /\ map_result (eval_f1 Demo.summary_of Demo.user_summary_of 0)
       Demo.train_infer_loader
     = Ok demo_t_train
  /\ (exists (v : epoch_vars spec_float nat) (log' : list (event spec_float nat nat)),
         train_batches Demo.cfg Demo.train_loader Demo.forward Demo.target_of 0 []
         = (log', Ok v)
         /\ f1_score v = filter (fun f1 => negb (np_isnan f1)) demo_f1s
         /\ length demo_f1s = 4)
  /\ (exists log' : list (event spec_float nat nat),
         evaluate Demo.test_loader Demo.train_infer_loader Demo.summary_of
                  Demo.user_summary_of Demo.np_mean 0 []
         = (log', Ok (Demo.np_mean demo_t_train, Demo.np_mean demo_t_test))
         /\ length demo_t_test = 2 /\ length demo_t_train = 1).
Proof.
  assert (Hb : 0 < batch_size Demo.cfg) by (simpl; lia).
  assert (H1 : map_result (train_f1 Demo.forward Demo.target_of 0)
                 (indexed 0 (firstn (length Demo.train_loader / batch_size Demo.cfg
                                     * batch_size Demo.cfg) Demo.train_loader))
               = Ok demo_f1s) by (vm_compute; reflexivity).
  assert (H2 : map_result (eval_f1 Demo.summary_of Demo.user_summary_of 0)
                 Demo.test_loader = Ok demo_t_test) by (vm_compute; reflexivity).
  assert (H3 : map_result (eval_f1 Demo.summary_of Demo.user_summary_of 0)
                 Demo.train_infer_loader = Ok demo_t_train)
    by (vm_compute; reflexivity).
  assert (Hsz : sizes_below_2_53 Demo.cfg Demo.train_loader)
    by (split; reflexivity).
  split; [exact Hb|]. split; [exact Hsz|].
  split; [exact H1|]. split; [exact H2|]. split; [exact H3|].
  exact (@f1_filtering_asymmetry spec_float nat nat
           Demo.cfg Demo.train_loader Demo.test_loader Demo.train_infer_loader
           Demo.forward Demo.target_of Demo.summary_of Demo.user_summary_of
           Demo.np_mean 0 [] demo_f1s demo_t_test demo_t_train Hb Hsz H1 H2 H3).
Defined.

Lemma train_epoch_batches_witness :
  0 < batch_size Demo.cfg
  /\ sizes_below_2_53 Demo.cfg Demo.train_loader
  /\ map_result (train_f1 Demo.forward Demo.target_of 0)
       (indexed 0 (concat (chunks (batch_size Demo.cfg)
                                  (length Demo.train_loader / batch_size Demo.cfg)
                                  Demo.train_loader)))
     = Ok demo_f1s
  /\ exists (v : epoch_vars spec_float nat) (log' : list (event spec_float nat nat)),
       train_batches Demo.cfg Demo.train_loader Demo.forward Demo.target_of 0 []
       = ([] ++ model_train spec_float nat nat 0 :: log', Ok v)
       /\ count (@is_zero_grad spec_float nat nat) log' = 5 / 2
       /\ count (@is_optimizer_step spec_float nat nat) log' = 5 / 2
       /\ count (@is_model_call spec_float nat nat) log' = 5 / 2 * 2.
Proof.
  assert (Hb : 0 < batch_size Demo.cfg) by (simpl; lia).
  assert (H1 : map_result (train_f1 Demo.forward Demo.target_of 0)
                 (indexed 0 (concat (chunks (batch_size Demo.cfg)
                                            (length Demo.train_loader
                                             / batch_size Demo.cfg)
                                            Demo.train_loader)))
               = Ok demo_f1s) by (vm_compute; reflexivity).
  assert (Hsz : sizes_below_2_53 Demo.cfg Demo.train_loader)
    by (split; reflexivity).
  split; [exact Hb|]. split; [exact Hsz|]. split; [exact H1|].
  destruct (@train_epoch_batches spec_float nat nat
              Demo.cfg Demo.train_loader Demo.forward Demo.target_of 0 []
              demo_f1s Hb Hsz H1)
    as (v & log' & Hrun & _ & _ & _ & _ & _ & Hz & _ & Hs & Hm).
  exists v, log'. split; [exact Hrun|]. split; [exact Hz|]. split; [exact Hs|].
  exact Hm.
Defined.

(** Variants of the concrete run: a zero batch size, a batch size above the
    number of videos, losses that go down, a dataset store with an empty user
    summary. *)
Definition demo_cfg_zero : config spec_float :=
  mk_config 3 0 (Demo.f32_of_Z 5) false "ckpt".

Definition demo_cfg_large : config spec_float :=
  mk_config 3 9 (Demo.f32_of_Z 5) true "ckpt".

Definition demo_forward_down (epoch_i k s : nat) : list Z * spec_float :=
  (if Nat.even s then [0; 0; 0]%Z else [1; 0; 1]%Z,
   Demo.f32_of_Z (10 - Z.of_nat epoch_i)).

Definition demo_user_summary_empty (item : nat) : ndarray2 := mk_ndarray2 2 [].

Lemma train_batches_drop_remainder_witness :
  0 < batch_size Demo.cfg
  /\ sizes_below_2_53 Demo.cfg Demo.train_loader
  /\ exists (v : epoch_vars spec_float nat) (log' : list (event spec_float nat nat)),
       train_batches Demo.cfg Demo.train_loader Demo.forward Demo.target_of 0 []
       = ([] ++ log', Ok v)
       /\ model_calls log' ++ iterator v = Demo.train_loader
       /\ length (iterator v) = 5 mod 2.
Proof.
  assert (Hb : 0 < batch_size Demo.cfg) by (simpl; lia).
  assert (Hsz : sizes_below_2_53 Demo.cfg Demo.train_loader)
    by (split; reflexivity).
  split; [exact Hb|]. split; [exact Hsz|].
  destruct (@train_batches_drop_remainder spec_float nat nat Demo.cfg
              Demo.train_loader Demo.forward Demo.target_of 0 []
              Hb Hsz (demo_train_ok 0))
    as (v & log' & Hrun & Hcalls & Hrest & _).
  exists v, log'. split; [exact Hrun|]. split; [exact Hcalls|exact Hrest].
Defined.

Lemma train_zero_batch_size_witness :
  batch_size demo_cfg_zero = 0
  /\ 0 < n_epochs demo_cfg_zero
  /\ train Demo.f32_of_Z Demo.f32_sub Demo.f32_div Demo.f32_mul Demo.f32_geb
       demo_cfg_zero Demo.train_loader Demo.test_loader Demo.train_infer_loader
       Demo.forward Demo.target_of Demo.stack_mean
       Demo.summary_of Demo.user_summary_of Demo.np_mean []
     = ([open_logfile spec_float nat nat; model_train spec_float nat nat 0],
        Raise ZeroDivisionError).
Proof.
  assert (Hb : batch_size demo_cfg_zero = 0) by reflexivity.
  assert (Hn : 0 < n_epochs demo_cfg_zero) by (simpl; lia).
  split; [exact Hb|]. split; [exact Hn|].
  exact (@train_zero_batch_size _ Demo.f32_of_Z Demo.f32_sub Demo.f32_div
           Demo.f32_mul Demo.f32_geb _ _ demo_cfg_zero Demo.train_loader
           Demo.test_loader Demo.train_infer_loader Demo.forward Demo.target_of
           Demo.stack_mean Demo.summary_of Demo.user_summary_of Demo.np_mean
           Hb Hn).
Defined.

Lemma train_too_few_videos_witness :
  length Demo.train_loader < batch_size demo_cfg_large
  /\ (Z.of_nat (batch_size demo_cfg_large) < 2 ^ 53)%Z
  /\ 0 < n_epochs demo_cfg_large
  /\ train Demo.f32_of_Z Demo.f32_sub Demo.f32_div Demo.f32_mul Demo.f32_geb
       demo_cfg_large Demo.train_loader Demo.test_loader Demo.train_infer_loader
       Demo.forward Demo.target_of Demo.stack_mean
       Demo.summary_of Demo.user_summary_of Demo.np_mean []
     = ([open_logfile spec_float nat nat; model_train spec_float nat nat 0],
        Raise RuntimeError).
Proof.
  assert (Hlt : length Demo.train_loader < batch_size demo_cfg_large)
    by (simpl; lia).
  assert (Hb : (Z.of_nat (batch_size demo_cfg_large) < 2 ^ 53)%Z) by reflexivity.
  assert (Hn : 0 < n_epochs demo_cfg_large) by (simpl; lia).
  split; [exact Hlt|]. split; [exact Hb|]. split; [exact Hn|].
  exact (@train_too_few_videos _ Demo.f32_of_Z Demo.f32_sub Demo.f32_div
           Demo.f32_mul Demo.f32_geb _ _ demo_cfg_large Demo.train_loader
           Demo.test_loader Demo.train_infer_loader Demo.forward Demo.target_of
           Demo.stack_mean Demo.summary_of Demo.user_summary_of Demo.np_mean
           Hlt Hb Hn).
Defined.

Lemma demo_down_ok (j : nat) :
  j < 3 ->
  stops Demo.f32_of_Z Demo.f32_sub Demo.f32_div Demo.f32_mul Demo.f32_geb
        Demo.cfg Demo.train_loader demo_forward_down Demo.stack_mean j = false
  /\ train_ok Demo.cfg Demo.train_loader demo_forward_down Demo.target_of j
  /\ eval_ok Demo.test_loader Demo.train_infer_loader
             Demo.summary_of Demo.user_summary_of j.
Proof.
  intros Hj.
  assert (Hcase : j = 0 \/ j = 1 \/ j = 2) by lia.
  split; [|split].
  - destruct Hcase as [->|[->| ->]]; vm_compute; reflexivity.
  - eexists. destruct Hcase as [->|[->| ->]]; vm_compute; reflexivity.
  - apply demo_eval_ok.
Qed.

Lemma train_runs_all_epochs_witness :
  0 < batch_size Demo.cfg <= length Demo.train_loader
  /\ (Z.of_nat (length Demo.train_loader) < 2 ^ 53)%Z
  /\ exists log : list (event spec_float nat nat),
       train Demo.f32_of_Z Demo.f32_sub Demo.f32_div Demo.f32_mul Demo.f32_geb
         Demo.cfg Demo.train_loader Demo.test_loader Demo.train_infer_loader
         demo_forward_down Demo.target_of Demo.stack_mean
         Demo.summary_of Demo.user_summary_of Demo.np_mean []
       = (log, Ok tt)
       /\ In (torch_save spec_float nat nat 2 (ckpt_path Demo.cfg)) log.
Proof.
  assert (Hb : 0 < batch_size Demo.cfg <= length Demo.train_loader)
    by (simpl; lia).
  assert (Hn : (Z.of_nat (length Demo.train_loader) < 2 ^ 53)%Z) by reflexivity.
  split; [exact Hb|]. split; [exact Hn|].
  destruct (@train_runs_all_epochs _ Demo.f32_of_Z Demo.f32_sub Demo.f32_div
              Demo.f32_mul Demo.f32_geb _ _ Demo.cfg Demo.train_loader
              Demo.test_loader Demo.train_infer_loader demo_forward_down
              Demo.target_of Demo.stack_mean Demo.summary_of
              Demo.user_summary_of Demo.np_mean Hb Hn demo_down_ok)
    as (log & Hrun & _ & Hall & _).
  exists log. split; [exact Hrun|].
  assert (H2 : 2 < n_epochs Demo.cfg) by (simpl; lia).
  exact (proj1 (Hall 2 H2)).
Defined.

Lemma train_evaluation_failure_witness :
  0 < batch_size Demo.cfg <= length Demo.train_loader
  /\ (Z.of_nat (length Demo.train_loader) < 2 ^ 53)%Z
  /\ map_result (eval_f1 Demo.summary_of demo_user_summary_empty 0) Demo.test_loader
     = Raise ValueError
  /\ exists log : list (event spec_float nat nat),
       train Demo.f32_of_Z Demo.f32_sub Demo.f32_div Demo.f32_mul Demo.f32_geb
         Demo.cfg Demo.train_loader Demo.test_loader Demo.train_infer_loader
         Demo.forward Demo.target_of Demo.stack_mean
         Demo.summary_of demo_user_summary_empty Demo.np_mean []
       = (log, Raise ValueError)
       /\ In (torch_save spec_float nat nat 0 (ckpt_path Demo.cfg)) log.
Proof.
  assert (Hb : 0 < batch_size Demo.cfg <= length Demo.train_loader)
    by (simpl; lia).
  assert (Hn : (Z.of_nat (length Demo.train_loader) < 2 ^ 53)%Z) by reflexivity.
  assert (Hk : 0 < n_epochs Demo.cfg) by (simpl; lia).
  assert (Hstop : demo_stops 0 = false) by (vm_compute; reflexivity).
  assert (Htest : map_result (eval_f1 Demo.summary_of demo_user_summary_empty 0)
                    Demo.test_loader = Raise ValueError) by reflexivity.
  split; [exact Hb|]. split; [exact Hn|]. split; [exact Htest|].
  destruct (@train_evaluation_failure _ Demo.f32_of_Z Demo.f32_sub Demo.f32_div
              Demo.f32_mul Demo.f32_geb _ _ Demo.cfg Demo.train_loader
              Demo.test_loader Demo.train_infer_loader Demo.forward
              Demo.target_of Demo.stack_mean Demo.summary_of
              demo_user_summary_empty Demo.np_mean 0 ValueError Hb Hn Hk
              (fun j (Hj : j < 0) => match Nat.nlt_0_r j Hj with end)
              (demo_train_ok 0) Hstop Htest)
    as (log & visited & rest & Hrun & _ & _ & Hsaved & _).
  exists log. split; [exact Hrun|exact Hsaved].
Defined.
